(** * Online Boutique load generator: the virtual-user behaviour

    A shallow embedding of [loadTest/online_boutique_locust.py].  The class
    [OnlineBoutiqueUser] keeps two attributes per simulated user,
    [product_ids] and [cart_items]; its methods talk to the frontend under
    test through [self.client] and draw from Python's [random] module.  Both
    the frontend and the random source are outside the program, so they are
    modelled as oracles carried by the world the methods run in. *)

From Stdlib Require Import String Ascii List Bool Arith ZArith Lia.
From Stdlib Require Import DecimalString DecimalPos DecimalZ.
From Stdlib Require Import QArith Lqa.
Import ListNotations.
Open Scope string_scope.
Open Scope list_scope.
Open Scope nat_scope.

(** ** Text helpers *)

Module Text.

(** The double-quote character, for HTML attribute values. *)
Definition dquote : string := String (ascii_of_nat 34) EmptyString.

(** [strip_prefix p s]: the rest of [s] behind [p], if [s] starts with [p]. *)
Fixpoint strip_prefix (p s : string) : option string :=
  match p with
  | EmptyString => Some s
  | String a p' =>
      match s with
      | EmptyString => None
      | String b s' => if Ascii.eqb a b then strip_prefix p' s' else None
      end
  end.

(** [span k s]: the longest prefix of [s] all of whose characters satisfy [k]. *)
Fixpoint span (k : ascii -> bool) (s : string) : string :=
  match s with
  | EmptyString => EmptyString
  | String c s' => if k c then String c (span k s') else EmptyString
  end.

Fixpoint all_chars (k : ascii -> bool) (s : string) : bool :=
  match s with
  | EmptyString => true
  | String c s' => k c && all_chars k s'
  end.

Definition is_empty (s : string) : bool :=
  match s with EmptyString => true | _ => false end.

(** [s[n:]] *)
Fixpoint drop (n : nat) (s : string) : string :=
  match n, s with
  | S k, String _ s' => drop k s'
  | _, _ => s
  end.

(** The last character of [s], or [d] when [s] is empty. *)
Fixpoint last_char (d : ascii) (s : string) : ascii :=
  match s with
  | EmptyString => d
  | String c s' => last_char c s'
  end.

Fixpoint mem_char (c : ascii) (s : string) : bool :=
  match s with
  | EmptyString => false
  | String x s' => Ascii.eqb x c || mem_char c s'
  end.

(** [occurs_in t s]: [t] is a substring of [s]. *)
Definition occurs_in (t s : string) : Prop :=
  exists pre post : string, s = (pre ++ t ++ post)%string.

(** The test Python writes [t in s]. *)
Fixpoint contains (t s : string) : bool :=
  match strip_prefix t s with
  | Some _ => true
  | None =>
      match s with
      | EmptyString => false
      | String _ s' => contains t s'
      end
  end.

(** Python's [str(n)] for an [int]. *)
Definition str_of_int (n : Z) : string := NilZero.string_of_int (Z.to_int n).

End Text.

(** ** Regular expressions of the shape used by the program

    [re.compile(r"/product/([A-Za-z0-9\-]+)")] is a literal followed by one
    capturing group, a greedy non-empty run over a character class.  Nothing
    follows the group, so the greedy run never backtracks. *)

Module Re.

Record pattern : Type := Pattern {
  literal : string;
  klass : ascii -> bool
}.

(** A match of the pattern anchored at the start of [s]; the value is the
    text of group 1. *)
Definition match_at (p : pattern) (s : string) : option string :=
  match Text.strip_prefix (literal p) s with
  | None => None
  | Some rest =>
      let g := Text.span (klass p) rest in
      if Text.is_empty g then None else Some g
  end.

(** [re.findall]: matches are searched left to right and do not overlap.
    [skip] counts the characters still covered by the previous match. *)
Fixpoint scan (p : pattern) (skip : nat) (s : string) : list string :=
  match s with
  | EmptyString => []
  | String _ s' =>
      match skip with
      | S k => scan p k s'
      | O =>
          match match_at p s with
          | Some g => g :: scan p (String.length (literal p) + String.length g - 1) s'
          | None => scan p 0 s'
          end
      end
  end.

Definition findall (p : pattern) (s : string) : list string := scan p 0 s.

End Re.

Definition in_range (lo hi : nat) (c : ascii) : bool :=
  (lo <=? nat_of_ascii c) && (nat_of_ascii c <=? hi).

(** The class [[A-Za-z0-9\-]]. *)
Definition product_id_char (c : ascii) : bool :=
  in_range 65 90 c || in_range 97 122 c || in_range 48 57 c
  || (nat_of_ascii c =? 45).

Definition PRODUCT_HREF_RE : Re.pattern :=
  Re.Pattern "/product/" product_id_char.

Definition sample_body : string :=
  ("<a href=" ++ Text.dquote ++ "/product/ABC-1" ++ Text.dquote ++ ">one</a>"
   ++ "<a href=" ++ Text.dquote ++ "/product/OLJCESPC7Z" ++ Text.dquote ++ ">two</a>")%string.

(** ** The world a simulated user runs in *)

Inductive method : Type := GET | POST.

(** Values of form fields: the program posts strings and one [int]. *)
Inductive value : Type :=
| Str (s : string)
| Int (n : Z).

Record Request : Type := mkRequest {
  verb : method;
  path : string;
  data : list (string * value);
  name : string;
  catch_response : bool
}.

(** The errors [requests] stores on a response when the request could not
    be carried out. *)
Inductive transport_error : Type := ConnectionError | Timeout.

(** What [self.client] hands back.  Either the frontend answered, and the
    program can read [resp.ok], [resp.status_code] and [resp.text] (which
    may be [None]); or the request could not be carried out, and the
    response only stores the error.  The client itself never raises. *)
Inductive Response : Type :=
| mkResponse (answer_ok : bool) (answer_status : Z) (answer_text : option string)
| Refused (error : transport_error).

(** [ok resp]: reading [resp.ok] gives [True].  It is [false] for an
    answer that is not ok, and for a refused request, on which the read
    does not give a value at all (see [read_ok] below). *)
Definition ok (resp : Response) : bool :=
  match resp with
  | mkResponse o _ _ => o
  | Refused _ => false
  end.

(** [resp.status_code]; the client sets it to 0 on a refused request. *)
Definition status_code (resp : Response) : Z :=
  match resp with
  | mkResponse _ c _ => c
  | Refused _ => 0
  end.

Definition text (resp : Response) : option string :=
  match resp with
  | mkResponse _ _ t => t
  | Refused _ => None
  end.

(** The frontend answered the request. *)
Definition answered (resp : Response) : bool :=
  match resp with
  | mkResponse _ _ _ => true
  | Refused _ => false
  end.

Definition CartLine : Type := (string * Z)%type.

(** The attributes [on_start] creates on [self]. *)
Record Session : Type := mkSession {
  product_ids : list string;
  cart_items : list CartLine
}.

(** What the run leaves behind: every request, together with the session
    as it stood when the request was issued, and every explicit
    [resp.success()] / [resp.failure(reason)], filed under the request's
    [name]. *)
Inductive Event : Type :=
| Sent (rq : Request) (at_issue : Session)
| Success (label : string)
| Failure (label : string) (reason : string).

(** [frontend n rq] is the answer to [rq] when it is the [n]-th request of
    the run; [entropy k] is the [k]-th raw draw of the random source. *)
Record World : Type := mkWorld {
  self : Session;
  frontend : nat -> Request -> Response;
  entropy : nat -> nat;
  requests : nat;
  draws : nat;
  log : list Event
}.

Definition with_self (s : Session) (w : World) : World :=
  mkWorld s (frontend w) (entropy w) (requests w) (draws w) (log w).

Definition with_log (l : list Event) (w : World) : World :=
  mkWorld (self w) (frontend w) (entropy w) (requests w) (draws w) l.

(** ** Computations: state passing with Python exceptions *)

Inductive exn : Type :=
| IndexError
| ValueError
| Transport (e : transport_error).

Inductive outcome (A : Type) : Type :=
| Ok (a : A)
| Raise (e : exn).
Arguments Ok {A} a.
Arguments Raise {A} e.

Definition M (A : Type) : Type := World -> outcome A * World.

Definition ret {A : Type} (a : A) : M A := fun w => (Ok a, w).

Definition raise {A : Type} (e : exn) : M A := fun w => (Raise e, w).

Definition bind {A B : Type} (m : M A) (k : A -> M B) : M B :=
  fun w =>
    match m w with
    | (Ok a, w') => k a w'
    | (Raise e, w') => (Raise e, w')
    end.

Declare Scope py_scope.
Delimit Scope py_scope with py.
Notation "x <- m ;; k" := (bind m (fun x => k))
  (at level 61, m at next level, right associativity) : py_scope.
Notation "m ;; k" := (bind m (fun _ => k))
  (at level 61, right associativity) : py_scope.
Open Scope py_scope.

Definition get_self : M Session := fun w => (Ok (self w), w).

Definition put_self (s : Session) : M unit := fun w => (Ok tt, with_self s w).

Definition emit (e : Event) : M unit :=
  fun w => (Ok tt, with_log (log w ++ [e]) w).

(** [self.client.request]: the request goes out and the frontend answers.
    The client does not raise on a failed request; it hands back a response
    whose [ok] is false. *)
Definition send (rq : Request) : M Response :=
  fun w =>
    (Ok (frontend w (requests w) rq),
     mkWorld (self w) (frontend w) (entropy w) (S (requests w)) (draws w)
             (log w ++ [Sent rq (self w)])).

Definition client_get (p : string) (label : string) (catch : bool) : M Response :=
  send (mkRequest GET p [] label catch).

Definition client_post (p : string) (d : list (string * value)) (label : string)
    (catch : bool) : M Response :=
  send (mkRequest POST p d label catch).

(** One raw draw from the random source. *)
Definition draw : M nat :=
  fun w =>
    (Ok (entropy w (draws w)),
     mkWorld (self w) (frontend w) (entropy w) (requests w) (S (draws w)) (log w)).

(** The value a raw draw [r] selects. *)
Definition choice_of {A : Type} (x : A) (xs : list A) (r : nat) : A :=
  nth (r mod length (x :: xs)) (x :: xs) x.

Definition randint_of (a b : Z) (r : nat) : Z :=
  (a + Z.of_nat (r mod Z.to_nat (b - a + 1)))%Z.

(** [random.choice(seq)]: [seq[randbelow(len(seq))]]; [IndexError] on an
    empty sequence. *)
Definition choice {A : Type} (l : list A) : M A :=
  match l with
  | [] => raise IndexError
  | x :: xs => r <- draw ;; ret (choice_of x xs r)
  end.

(** [random.randint(a, b)]: [a + randbelow(b - a + 1)]; [ValueError] on an
    empty range. *)
Definition randint (a b : Z) : M Z :=
  if (b <? a)%Z then raise ValueError
  else r <- draw ;; ret (randint_of a b r).

(** Reading [resp.ok] on a response obtained with [catch_response=True].
    [requests] computes it by [raise_for_status] and turns only an HTTP
    error status into [False]; on a refused request the stored transport
    error is raised instead, out of the read. *)
Definition read_ok (resp : Response) : M bool :=
  match resp with
  | mkResponse o _ _ => ret o
  | Refused e => raise (Transport e)
  end.

(** ** The class [OnlineBoutiqueUser] *)

Definition is_nil {A : Type} (l : list A) : bool :=
  match l with [] => true | _ => false end.

(** Python's [x or ""] on an optional string. *)
Definition or_empty (t : option string) : string :=
  match t with
  | Some s => if Text.is_empty s then "" else s
  | None => ""
  end.

Definition get_product_ids : M (list string) :=
  s <- get_self ;; ret (product_ids s).

Definition set_product_ids (ids : list string) : M unit :=
  s <- get_self ;; put_self (mkSession ids (cart_items s)).

Definition get_cart_items : M (list CartLine) :=
  s <- get_self ;; ret (cart_items s).

Definition set_cart_items (c : list CartLine) : M unit :=
  s <- get_self ;; put_self (mkSession (product_ids s) c).

(** [self.cart_items.append(line)] *)
Definition cart_items_append (line : CartLine) : M unit :=
  c <- get_cart_items ;; set_cart_items (c ++ [line]).

(** [self.cart_items.clear()] *)
Definition cart_items_clear : M unit := set_cart_items [].

(** [resp.success()] and [resp.failure(reason)] on a response caught under
    the request name [label]. *)
Definition resp_success (label : string) : M unit := emit (Success label).

Definition resp_failure (label reason : string) : M unit :=
  emit (Failure label reason).

Definition CURRENCIES : list string :=
  ["USD"; "EUR"; "JPY"; "GBP"; "CAD"; "AUD"].

Definition checkout_payload : list (string * value) :=
  [ ("email", Str "user@example.com");
    ("street_address", Str "1600 Amphitheatre Parkway");
    ("zip_code", Str "94043");
    ("city", Str "Mountain View");
    ("state", Str "CA");
    ("country", Str "USA");
    ("credit_card_number", Str "4432-8015-6152-0454");
    ("credit_card_expiration_month", Str "12");
    ("credit_card_expiration_year", Str "2027");
    ("credit_card_cvv", Str "123") ].

(** GET /, then parse the HTML for product ids.  Every path through the
    [with] block that gets past [resp.ok] marks the response itself; an
    exception leaves the block unmarked. *)
Definition _load_products : M unit :=
  resp <- client_get "/" "index" true ;;
  is_ok <- read_ok resp ;;
  if negb is_ok then
    resp_failure "index" ("Index failed with " ++ Text.str_of_int (status_code resp))
  else
    let html := or_empty (text resp) in
    set_product_ids (Re.findall PRODUCT_HREF_RE html) ;;
    ids <- get_product_ids ;;
    if is_nil ids then resp_success "index"
    else resp_success "index".

Definition on_start : M unit :=
  set_product_ids [] ;;
  set_cart_items [] ;;
  _load_products.

(** A random product id; the empty string when none is known even after a
    refresh from the index page. *)
Definition _choose_product : M string :=
  ids <- get_product_ids ;;
  (if is_nil ids then _load_products else ret tt) ;;
  ids <- get_product_ids ;;
  if is_nil ids then ret ""
  else choice ids.

Definition index : M unit :=
  client_get "/" "index" false ;; ret tt.

Definition set_currency : M unit :=
  currency <- choice CURRENCIES ;;
  client_post "/setCurrency" [("currency_code", Str currency)] "setCurrency" false ;;
  ret tt.

Definition browse_product : M unit :=
  pid <- _choose_product ;;
  if Text.is_empty pid then ret tt
  else client_get ("/product/" ++ pid) "product" false ;; ret tt.

Definition add_to_cart : M unit :=
  pid <- _choose_product ;;
  if Text.is_empty pid then ret tt
  else
    qty <- randint 1 3 ;;
    cart_items_append (pid, qty) ;;
    client_post "/cart" [("product_id", Str pid); ("quantity", Int qty)] "cart:add" false ;;
    ret tt.

Definition view_cart : M unit :=
  client_get "/cart" "cart:view" false ;; ret tt.

Definition checkout : M unit :=
  cart <- get_cart_items ;;
  if is_nil cart then ret tt
  else
    resp <- client_post "/cart/checkout" checkout_payload "cart:checkout" true ;;
    is_ok <- read_ok resp ;;
    if is_ok then
      resp_success "cart:checkout" ;;
      cart_items_clear
    else
      resp_failure "cart:checkout"
        ("Checkout failed with " ++ Text.str_of_int (status_code resp)).

(** The [@task(n)] methods and their weights, in the order of the class body. *)
Inductive Task : Type :=
| TaskIndex
| TaskSetCurrency
| TaskBrowseProduct
| TaskAddToCart
| TaskViewCart
| TaskCheckout.

Definition tasks : list Task :=
  [TaskIndex; TaskSetCurrency; TaskBrowseProduct; TaskAddToCart; TaskViewCart;
   TaskCheckout].

Definition task_weight (t : Task) : Z :=
  match t with
  | TaskIndex => 1
  | TaskSetCurrency => 2
  | TaskBrowseProduct => 10
  | TaskAddToCart => 2
  | TaskViewCart => 3
  | TaskCheckout => 1
  end.

Definition task_body (t : Task) : M unit :=
  match t with
  | TaskIndex => index
  | TaskSetCurrency => set_currency
  | TaskBrowseProduct => browse_product
  | TaskAddToCart => add_to_cart
  | TaskViewCart => view_cart
  | TaskCheckout => checkout
  end.

(** A user's life, as the framework drives it: [on_start], then one task
    after the other.  Which task runs in which cycle is the scheduler's
    choice, so the schedule is an input here.  An exception out of a task
    ends that cycle only: the framework logs it and the next task starts
    from the state the failed one left.  An exception out of [on_start]
    ends the user before its first cycle. *)
Fixpoint run_tasks (ts : list Task) : M unit :=
  match ts with
  | [] => ret tt
  | t :: ts' => fun w => run_tasks ts' (snd (task_body t w))
  end.

Definition run_user (ts : list Task) : M unit :=
  on_start ;; run_tasks ts.

(** A frontend that answers every request the same way, and one whose
    index page lists the products of [sample_body]. *)
Definition always (r : Response) : nat -> Request -> Response := fun _ _ => r.

Definition fresh (f : nat -> Request -> Response) (e : nat -> nat) : World :=
  mkWorld (mkSession [] []) f e 0 0 [].

Definition shop : nat -> Request -> Response :=
  always (mkResponse true 200 (Some sample_body)).

Definition outage : nat -> Request -> Response :=
  always (mkResponse false 503 None).

(** A frontend that cannot be reached at all. *)
Definition unreachable : nat -> Request -> Response :=
  always (Refused ConnectionError).

(** ** Vocabulary for the properties *)

Definition checkout_request : Request :=
  mkRequest POST "/cart/checkout" checkout_payload "cart:checkout" true.

Definition checkout_failure (resp : Response) : Event :=
  Failure "cart:checkout"
    ("Checkout failed with " ++ Text.str_of_int (status_code resp)).

(** The events a computation appended to the log of [w]. *)
Definition appended (w w' : World) (es : list Event) : Prop :=
  log w' = log w ++ es.

Definition index_request (catch : bool) : Request :=
  mkRequest GET "/" [] "index" catch.

Definition index_failure (resp : Response) : Event :=
  Failure "index" ("Index failed with " ++ Text.str_of_int (status_code resp)).

(** The product ids [_load_products] finds in a response. *)
Definition discover (resp : Response) : list string :=
  Re.findall PRODUCT_HREF_RE (or_empty (text resp)).

(** The mark [_load_products] leaves on an answer to its request. *)
Definition index_mark (resp : Response) : Event :=
  if ok resp then Success "index" else index_failure resp.

(** The mark [checkout] leaves on an answer to its request. *)
Definition checkout_mark (resp : Response) : Event :=
  if ok resp then Success "cart:checkout" else checkout_failure resp.

(** What is logged behind a caught request: the mark [m] when the request
    was answered, nothing when it was refused. *)
Definition marks_of (resp : Response) (m : Event) : list Event :=
  if answered resp then [m] else [].

(** How a [with] block over [resp] ends: normally on an answer, with the
    stored error on a refused request. *)
Definition block_outcome (resp : Response) : outcome unit :=
  match resp with
  | mkResponse _ _ _ => Ok tt
  | Refused e => Raise (Transport e)
  end.

Definition loaded (w : World) : World :=
  let resp := frontend w (requests w) (index_request true) in
  mkWorld
    (mkSession (if ok resp then discover resp else product_ids (self w))
               (cart_items (self w)))
    (frontend w) (entropy w) (S (requests w)) (draws w)
    (log w ++ Sent (index_request true) (self w)
           :: marks_of resp (index_mark resp)).

(** The world in which [_choose_product] makes its choice. *)
Definition refreshed (w : World) : World :=
  if is_nil (product_ids (self w)) then loaded w else w.

(** How the refresh of [_choose_product] ends. *)
Definition refresh_outcome (w : World) : outcome unit :=
  if is_nil (product_ids (self w)) then
    block_outcome (frontend w (requests w) (index_request true))
  else Ok tt.

Definition drawn (w : World) : World :=
  mkWorld (self w) (frontend w) (entropy w) (requests w) (S (draws w)) (log w).

Definition add_request (pid : string) (qty : Z) : Request :=
  mkRequest POST "/cart" [("product_id", Str pid); ("quantity", Int qty)]
            "cart:add" false.

(** The world after the second half of [add_to_cart]: quantity drawn, line
    appended, request sent. *)
Definition added (w : World) (pid : string) (qty : Z) : World :=
  let s := mkSession (product_ids (self w)) (cart_items (self w) ++ [(pid, qty)]) in
  mkWorld s (frontend w) (entropy w) (S (requests w)) (S (draws w))
          (log w ++ [Sent (add_request pid qty) s]).

(** [add_to_cart], started in [w], picks the product [pid] and draws the
    quantity [qty]. *)
Definition selects (w : World) (pid : string) (qty : Z) : Prop :=
  fst (_choose_product w) = Ok pid /\
  Text.is_empty pid = false /\
  randint_of 1 3 (entropy w (draws (snd (_choose_product w)))) = qty.

(** [has_match p s]: somewhere in [s] the literal of [p] is followed by a
    character of its class, that is, the pattern matches a substring. *)
Definition has_match (p : Re.pattern) (s : string) : Prop :=
  exists (pre : string) (c : ascii) (post : string),
    s = (pre ++ Re.literal p ++ String c post)%string /\ Re.klass p c = true.

(** [quiet lit pre t]: in the text [pre ++ t], no occurrence of [lit]
    starts inside [pre]. *)
Definition quiet (lit pre t : string) : Prop :=
  forall a b : string,
    pre = (a ++ b)%string -> b <> ""%string ->
    Text.strip_prefix lit (b ++ t) = None.

(** The opening of a link attribute, [href=] and a double quote, and the
    whole attribute for the product [id]. *)
Definition href_open : string := ("href=" ++ Text.dquote)%string.

Definition product_link (id : string) : string :=
  (href_open ++ "/product/" ++ id ++ Text.dquote)%string.

(** [g] has the shape of group 1 of [p]. *)
Definition group_shape (p : Re.pattern) (g : string) : Prop :=
  Text.is_empty g = false /\ Text.all_chars (Re.klass p) g = true.

(** The world after a request that is not caught: one more request sent,
    nothing else touched. *)
Definition sent (w : World) (rq : Request) : World :=
  mkWorld (self w) (frontend w) (entropy w) (S (requests w)) (draws w)
          (log w ++ [Sent rq (self w)]).

Definition product_request (pid : string) : Request :=
  mkRequest GET ("/product/" ++ pid) [] "product" false.

Definition currency_request (currency : string) : Request :=
  mkRequest POST "/setCurrency" [("currency_code", Str currency)] "setCurrency" false.

Definition cart_request : Request :=
  mkRequest GET "/cart" [] "cart:view" false.

(** A user whose frontend is down, before [on_start] and with no product
    known. *)
Definition offline_world : World := fresh outage (fun _ => 0).

(** Among the raw draws [0 .. n-1], how many make [f] produce [a]. *)
Definition favourable {A : Type} (eqb : A -> A -> bool) (f : nat -> A) (n : nat)
    (a : A) : nat :=
  length (filter (fun r => eqb (f r) a) (seq 0 n)).

(** The currency a raw draw selects in [set_currency]. *)
Definition currency_of (r : nat) : string :=
  match CURRENCIES with
  | [] => ""
  | x :: xs => choice_of x xs r
  end.

(** The states a user can be in between two cycles: after [on_start], from
    whatever world the user was created in, and after any task run from
    such a state. *)
Inductive reachable : World -> Prop :=
| reach_start : forall w0, reachable (snd (on_start w0))
| reach_task : forall w t, reachable w -> reachable (snd (task_body t w)).

Definition quantity_in_range (line : CartLine) : Prop :=
  (1 <= snd line <= 3)%Z.

(** The world after the request and the mark of a [checkout] on a non-empty
    cart. *)
Definition checked_out (w : World) : World :=
  let resp := frontend w (requests w) checkout_request in
  mkWorld
    (mkSession (product_ids (self w))
               (if ok resp then [] else cart_items (self w)))
    (frontend w) (entropy w) (S (requests w)) (draws w)
    (log w ++ Sent checkout_request (self w)
           :: marks_of resp (checkout_mark resp)).

(** ** The action registry and the weighted selector

    The source declares the task weights with [@task(n)] and leaves the
    registry and the choice of the next task to the Locust framework, which
    is not part of the repository.  The definitions of this section follow
    the specification, section 4.1; the table they are applied to,
    [registry_table], is the one the source declares. *)

(** Modelled from the spec: the ActionDescriptor record (name, weight,
    handler) of section 3; the framework's task objects are missing. *)
Record ActionDescriptor : Type := mkAction {
  action_name : string;
  weight : Z;
  handler : M unit
}.

(** Modelled from the spec: the ConfigurationError of section 7 (empty or
    invalid action weight table); the framework's error is missing. *)
Inductive ConfigurationError : Type := InvalidWeightTable.

(** Modelled from the spec: the ActionRegistry of section 3, the
    descriptors with their precomputed total weight; the framework's task
    list is missing. *)
Record ActionRegistry : Type := mkRegistry {
  descriptors : list ActionDescriptor;
  total_weight : Z
}.

(** Modelled from the spec: the total weight of a table, the sum of the
    weights of its descriptors (section 4.1). *)
Fixpoint sum_weights (ds : list ActionDescriptor) : Z :=
  match ds with
  | [] => 0
  | d :: ds' => weight d + sum_weights ds'
  end.

(** Modelled from the spec: registry construction, which validates
    total_weight > 0 and fails with a ConfigurationError otherwise
    (section 4.1, edge case); the framework's start-up check is missing. *)
Definition build_registry (ds : list ActionDescriptor)
    : ActionRegistry + ConfigurationError :=
  if (0 <? sum_weights ds)%Z then inl (mkRegistry ds (sum_weights ds))
  else inr InvalidWeightTable.

(** Modelled from the spec: locating the descriptor whose cumulative-weight
    range contains the drawn value (section 4.1); [below] is the total
    weight of the descriptors already passed. *)
Fixpoint locate (ds : list ActionDescriptor) (below v : Z)
    : option ActionDescriptor :=
  match ds with
  | [] => None
  | d :: ds' =>
      let upto := (below + weight d)%Z in
      if ((below <=? v) && (v <? upto))%Z then Some d
      else locate ds' upto v
  end.

(** Modelled from the spec: select_action of section 4.1, on the raw draw
    [r]: a value in [0, total_weight) is drawn and the descriptor whose
    range contains it is returned; the framework's scheduler is missing. *)
Definition select_action (reg : ActionRegistry) (r : nat)
    : option ActionDescriptor :=
  locate (descriptors reg) 0 (Z.of_nat r mod total_weight reg)%Z.

(** Modelled from the spec: one cycle of an ACTIVE session (section 4.3):
    the selector chooses a descriptor and its handler runs. *)
Definition cycle (reg : ActionRegistry) : M unit :=
  r <- draw ;;
  match select_action reg r with
  | Some d => handler d
  | None => ret tt
  end.

(** Modelled from the spec: [n] cycles in a row, strictly one after the
    other (section 5). *)
Fixpoint cycles (reg : ActionRegistry) (n : nat) : M unit :=
  match n with
  | O => ret tt
  | S k => fun w => cycles reg k (snd (cycle reg w))
  end.

(** Modelled from the spec: the outcome of a run (sections 4.1 and 7): a
    ConfigurationError at start-up is fatal to the whole run; otherwise the
    session starts and runs its cycles. *)
Inductive RunResult : Type :=
| Fatal (e : ConfigurationError)
| Ran (result : outcome unit * World).

(** Modelled from the spec: a run of one session for [n] cycles on the
    table [ds]: the registry is built first, once; only then does the
    session start. *)
Definition run (ds : list ActionDescriptor) (n : nat) (w : World) : RunResult :=
  match build_registry ds with
  | inr e => Fatal e
  | inl reg => Ran ((on_start ;; cycles reg n) w)
  end.

(** Modelled from the spec: the names section 4.3 gives the six tasks;
    the source names them by its method names. *)
Definition task_name (t : Task) : string :=
  match t with
  | TaskIndex => "index"
  | TaskSetCurrency => "setCurrency"
  | TaskBrowseProduct => "browseProduct"
  | TaskAddToCart => "addToCart"
  | TaskViewCart => "viewCart"
  | TaskCheckout => "checkout"
  end.

(** The weight table of the program: one descriptor per [@task] method. *)
Definition registry_table : list ActionDescriptor :=
  map (fun t => mkAction (task_name t) (task_weight t) (task_body t)) tasks.

(** [picks reg nm r]: the raw draw [r] selects an action named [nm]. *)
Definition picks (reg : ActionRegistry) (nm : string) (r : nat) : bool :=
  match select_action reg r with
  | Some d => String.eqb (action_name d) nm
  | None => false
  end.

(** Among the [total_weight] equally likely draws, how many select [nm]. *)
Definition frequency (reg : ActionRegistry) (nm : string) : nat :=
  length (filter (picks reg nm) (seq 0 (Z.to_nat (total_weight reg)))).

(** The weight the table gives the name [nm]. *)
Definition weight_named (nm : string) (ds : list ActionDescriptor) : Z :=
  sum_weights (filter (fun d => String.eqb (action_name d) nm) ds).

Definition weights_nonnegative (ds : list ActionDescriptor) : Prop :=
  Forall (fun d => (0 <= weight d)%Z) ds.

(** [hits nm o]: the located descriptor, if any, is named [nm]. *)
Definition hits (nm : string) (o : option ActionDescriptor) : bool :=
  match o with
  | Some d => String.eqb (action_name d) nm
  | None => false
  end.

(** ** Sample worlds *)

(** A user who knows one product and has one line in the cart. *)
Definition basket_world (f : nat -> Request -> Response) : World :=
  mkWorld (mkSession ["ABC-1"] [("ABC-1", 2%Z)]) f (fun n => n) 0 0 [].

(** A user who knows only the product X, on a frontend that is down; the
    random source makes the next two quantities 2 and 1. *)
Definition x_world : World :=
  mkWorld (mkSession ["X"] []) outage
          (fun n => match n with 1 => 1 | _ => 0 end) 0 0 [].

(** A table with no positive weight. *)
Definition idle_table : list ActionDescriptor :=
  [mkAction "index" 0 index; mkAction "checkout" (-1) checkout].

(** ** What a cycle leaves in the log *)

Definition is_sent (e : Event) : bool :=
  match e with Sent _ _ => true | _ => false end.

(** The number of requests among the events [es]. *)
Definition count_sent (es : list Event) : nat := length (filter is_sent es).

(** The events of the refresh [_choose_product] makes when no product is
    known. *)
Definition refresh_events (w : World) : list Event :=
  if is_nil (product_ids (self w)) then
    Sent (index_request true) (self w)
    :: marks_of (frontend w (requests w) (index_request true))
                (index_mark (frontend w (requests w) (index_request true)))
  else [].

(** The product [_choose_product] returns in [w]; the empty string when
    none is known after the refresh. *)
Definition chosen (w : World) : string :=
  match product_ids (self (refreshed w)) with
  | [] => ""
  | x :: xs => choice_of x xs (entropy w (draws w))
  end.

(** The quantity [add_to_cart] draws in [w] once a product is chosen. *)
Definition drawn_quantity (w : World) : Z :=
  randint_of 1 3 (entropy w (S (draws w))).

(** The events one run of a task appends to the log. *)
Definition task_events (t : Task) (w : World) : list Event :=
  match t with
  | TaskIndex => [Sent (index_request false) (self w)]
  | TaskSetCurrency =>
      [Sent (currency_request (currency_of (entropy w (draws w)))) (self w)]
  | TaskBrowseProduct =>
      refresh_events w ++
      (if Text.is_empty (chosen w) then []
       else [Sent (product_request (chosen w)) (self (refreshed w))])
  | TaskAddToCart =>
      refresh_events w ++
      (if Text.is_empty (chosen w) then []
       else [Sent (add_request (chosen w) (drawn_quantity w))
                  (mkSession (product_ids (self (refreshed w)))
                             (cart_items (self w)
                              ++ [(chosen w, drawn_quantity w)]))])
  | TaskViewCart => [Sent cart_request (self w)]
  | TaskCheckout =>
      if is_nil (cart_items (self w)) then []
      else Sent checkout_request (self w)
           :: marks_of (frontend w (requests w) checkout_request)
                       (checkout_mark (frontend w (requests w) checkout_request))
  end.

(** How one run of a task ends. *)
Definition task_outcome (t : Task) (w : World) : outcome unit :=
  match t with
  | TaskBrowseProduct | TaskAddToCart => refresh_outcome w
  | TaskCheckout =>
      if is_nil (cart_items (self w)) then Ok tt
      else block_outcome (frontend w (requests w) checkout_request)
  | _ => Ok tt
  end.

(** The cart line a logged request added, if it is a POST to /cart with
    the two fields [add_to_cart] sends. *)
Definition added_line (rq : Request) : option CartLine :=
  match verb rq, data rq with
  | POST, [(_, Str pid); (_, Int qty)] =>
      if String.eqb (path rq) "/cart" then Some (pid, qty) else None
  | _, _ => None
  end.

(** The cart as an observer of the log would keep it: a line for every
    add request, emptied at every successful checkout. *)
Definition replay_event (cart : list CartLine) (e : Event) : list CartLine :=
  match e with
  | Sent rq _ =>
      match added_line rq with
      | Some line => cart ++ [line]
      | None => cart
      end
  | Success label =>
      if String.eqb label "cart:checkout" then [] else cart
  | Failure _ _ => cart
  end.

Definition replay (es : list Event) (cart : list CartLine) : list CartLine :=
  fold_left replay_event es cart.

(** The states a user reaches from [w] by running tasks. *)
Inductive runs_to (w : World) : World -> Prop :=
| runs_refl : runs_to w w
| runs_task : forall w' t, runs_to w w' -> runs_to w (snd (task_body t w')).

(** The status code a failure reason of the program names, if any. *)
Definition status_of_reason (prefix reason : string) : option Z :=
  match Text.strip_prefix prefix reason with
  | Some digits => option_map Z.of_int (NilZero.int_of_string digits)
  | None => None
  end.

(** [m] marks the response to [rq]: a success or a failure filed under the
    name of the request. *)
Definition mark_for (rq : Request) (m : Event) : Prop :=
  m = Success (name rq) \/ exists reason, m = Failure (name rq) reason.

(** A stretch of log as the frontend [f] shapes it, the first request of
    the stretch being request number [n]: a request sent without
    [catch_response] stands alone; one sent with it is followed at once by
    exactly one mark for it when the frontend answered, and by none when
    the frontend refused it, since reading [ok] then raised before any mark
    was set; no mark stands anywhere else. *)
Inductive marked (f : nat -> Request -> Response) : nat -> list Event -> Prop :=
| marked_nil : forall n, marked f n []
| marked_plain : forall n rq s es,
    catch_response rq = false -> marked f (S n) es ->
    marked f n (Sent rq s :: es)
| marked_caught : forall n rq s m es,
    catch_response rq = true -> answered (f n rq) = true -> mark_for rq m ->
    marked f (S n) es ->
    marked f n (Sent rq s :: m :: es)
| marked_raised : forall n rq s es,
    catch_response rq = true -> answered (f n rq) = false ->
    marked f (S n) es ->
    marked f n (Sent rq s :: es).

(** A stretch of log in which every request sent with [catch_response] is
    followed at once by exactly one mark for it, and no mark stands
    anywhere else. *)
Inductive all_marked : list Event -> Prop :=
| all_marked_nil : all_marked []
| all_marked_plain : forall rq s es,
    catch_response rq = false -> all_marked es -> all_marked (Sent rq s :: es)
| all_marked_caught : forall rq s m es,
    catch_response rq = true -> mark_for rq m -> all_marked es ->
    all_marked (Sent rq s :: m :: es).

(** [refused_at w e]: the exception [e] is the transport error of a request
    sent with [catch_response] that the frontend refuses in [w]. *)
Definition refused_at (w : World) (e : exn) : Prop :=
  exists rq err,
    catch_response rq = true /\
    frontend w (requests w) rq = Refused err /\
    e = Transport err.

(** A frontend that answers every request, whatever the status. *)
Definition always_answers (f : nat -> Request -> Response) : Prop :=
  forall n rq, answered (f n rq) = true.

(** The requests the class can send. *)
Definition request_shape (rq : Request) : Prop :=
  (exists catch, rq = index_request catch) \/
  (exists currency, In currency CURRENCIES /\ rq = currency_request currency) \/
  (exists pid, group_shape PRODUCT_HREF_RE pid /\ rq = product_request pid) \/
  (exists pid qty,
     group_shape PRODUCT_HREF_RE pid /\ (1 <= qty <= 3)%Z /\
     rq = add_request pid qty) \/
  rq = cart_request \/
  rq = checkout_request.

(** A user who has just started on the sample shop, and the same user after
    one [add_to_cart]. *)
Definition shopper : World := snd (on_start (fresh shop (fun n => n))).

Definition shopper_with_line : World := snd (task_body TaskAddToCart shopper).

(** A user about to start on a frontend that cannot be reached. *)
Definition unplugged_world : World := fresh unreachable (fun _ => 0).

(** ** The think-time pacer

    The source sets [wait_time = between(1.0, 3.0)] and leaves [between],
    and the pause itself, to the Locust framework.  The definitions of
    this section follow the specification, section 4.4, with the bounds of
    the source.  Delays are rationals on a grid of [resolution] steps
    between the bounds; the rounding of floating-point arithmetic is not
    modelled. *)







(** * Properties *)

(** ** The pattern on examples *)

Example findall_sample :
  Re.findall PRODUCT_HREF_RE sample_body = ["ABC-1"; "OLJCESPC7Z"].
Proof. reflexivity. Qed.

Example findall_adjacent :
  Re.findall PRODUCT_HREF_RE "/product//product/a/product/b-c/product/" = ["a"; "b-c"].
Proof. reflexivity. Qed.

Example str_of_int_500 : Text.str_of_int 500 = "500".
Proof. reflexivity. Qed.

(** ** Unfolding computations *)

Create HintDb py discriminated.

#[local] Hint Unfold ret raise bind get_self put_self emit send client_get
  client_post draw choice randint with_self with_log get_product_ids
  set_product_ids get_cart_items set_cart_items cart_items_append
  cart_items_clear resp_success resp_failure : py.

Ltac run_py := autounfold with py; cbn.

(** ** The scanner *)

Lemma append_assoc : forall a b c : string,
  ((a ++ b) ++ c)%string = (a ++ b ++ c)%string.
Proof.
  induction a as [|x a IH]; intros b c; cbn; [|rewrite IH]; reflexivity.
Qed.

Lemma append_empty_r : forall a : string, (a ++ "")%string = a.
Proof.
  induction a as [|x a IH]; cbn; [|rewrite IH]; reflexivity.
Qed.

Section Scanner.

Variable p : Re.pattern.

Lemma strip_prefix_Some : forall (q s r : string),
  Text.strip_prefix q s = Some r <-> s = (q ++ r)%string.
Proof.
  induction q as [|a q IH]; intros s r; cbn.
  - split; [intros [= ->] | intros ->]; reflexivity.
  - destruct s as [|b s]; [split; discriminate|].
    destruct (Ascii.eqb a b) eqn:E.
    + apply Ascii.eqb_eq in E; subst b. rewrite IH.
      split; [intros -> | intros [= ->]]; reflexivity.
    + split; [discriminate|]. intros [= <- _].
      rewrite Ascii.eqb_refl in E; discriminate.
Qed.

Lemma span_all_chars : forall k s, Text.all_chars k (Text.span k s) = true.
Proof.
  induction s as [|c s IH]; cbn; [reflexivity|].
  destruct (k c) eqn:E; cbn; [rewrite E, IH|]; reflexivity.
Qed.

Lemma span_is_prefix : forall k s,
  exists rest : string, s = (Text.span k s ++ rest)%string.
Proof.
  induction s as [|c s [rest IH]]; cbn.
  - exists ""; reflexivity.
  - destruct (k c).
    + exists rest; cbn; congruence.
    + exists (String c s); reflexivity.
Qed.

Lemma span_empty_iff : forall k s,
  Text.is_empty (Text.span k s) = false <->
  exists c s', s = String c s' /\ k c = true.
Proof.
  intros k [|c s]; cbn.
  - split; [discriminate | intros (? & ? & [=] & _)].
  - destruct (k c) eqn:E; cbn.
    + split; [eauto | reflexivity].
    + split; [discriminate | intros (? & ? & [= <- <-] & H); congruence].
Qed.

(** A match anchored at the start of [s] is the literal, then the group. *)
Lemma match_at_Some : forall s g,
  Re.match_at p s = Some g ->
  group_shape p g /\ exists rest : string, s = (Re.literal p ++ g ++ rest)%string.
Proof.
  unfold Re.match_at, group_shape; intros s g H.
  destruct (Text.strip_prefix (Re.literal p) s) as [r|] eqn:E; [|discriminate].
  apply strip_prefix_Some in E.
  destruct (Text.is_empty (Text.span (Re.klass p) r)) eqn:Hg; [discriminate|].
  injection H as <-. split; [split; [exact Hg | apply span_all_chars]|].
  destruct (span_is_prefix (Re.klass p) r) as [rest Hr].
  exists rest. rewrite E at 1. rewrite Hr at 1. reflexivity.
Qed.


Lemma has_match_tail : forall c s, has_match p s -> has_match p (String c s).
Proof.
  intros c s (pre & d & post & -> & Hk).
  exists (String c pre), d, post. split; [reflexivity | exact Hk].
Qed.

Lemma has_match_here : forall s g, Re.match_at p s = Some g -> has_match p s.
Proof.
  intros s g H. destruct (match_at_Some _ _ H) as [[Hne Hall] [rest ->]].
  destruct g as [|c g]; [discriminate|].
  cbn in Hall. apply andb_true_iff in Hall as [Hc _].
  exists "", c, (g ++ rest)%string. split; [reflexivity | exact Hc].
Qed.

Lemma occurs_in_tail : forall t c s,
  Text.occurs_in t s -> Text.occurs_in t (String c s).
Proof.
  intros t c s (pre & post & ->). exists (String c pre), post. reflexivity.
Qed.

(** Everything the scanner returns is a group of the pattern behind its
    literal, somewhere in the text. *)
Lemma scan_sound : forall s skip g,
  In g (Re.scan p skip s) ->
  group_shape p g /\ Text.occurs_in (Re.literal p ++ g) s.
Proof.
  induction s as [|c s IH]; intros skip g Hin; [destruct Hin|].
  cbn [Re.scan] in Hin. destruct skip as [|k].
  - destruct (Re.match_at p (String c s)) as [g'|] eqn:E.
    + destruct Hin as [<- | Hin].
      * destruct (match_at_Some _ _ E) as [Hs [rest Hr]].
        split; [exact Hs|]. exists "", rest. rewrite Hr.
        cbn. rewrite append_assoc. reflexivity.
      * destruct (IH _ _ Hin) as [Hs Ho].
        split; [exact Hs | apply occurs_in_tail, Ho].
    + destruct (IH _ _ Hin) as [Hs Ho].
      split; [exact Hs | apply occurs_in_tail, Ho].
  - destruct (IH _ _ Hin) as [Hs Ho].
    split; [exact Hs | apply occurs_in_tail, Ho].
Qed.

(** Without a match anywhere the scanner returns nothing. *)
Lemma scan_no_match : forall s skip, ~ has_match p s -> Re.scan p skip s = [].
Proof.
  induction s as [|c s IH]; intros skip Hno; [reflexivity|].
  assert (Hs : ~ has_match p s) by (intro H; apply Hno, has_match_tail, H).
  cbn [Re.scan]. destruct skip as [|k]; [|apply IH, Hs].
  destruct (Re.match_at p (String c s)) as [g|] eqn:E.
  - exfalso. apply Hno. eapply has_match_here, E.
  - apply IH, Hs.
Qed.


(** Characters covered by a match are not searched again: skipping [k]
    characters is searching the text behind them. *)
Lemma scan_skip : forall s k, Re.scan p k s = Re.scan p 0 (Text.drop k s).
Proof.
  induction s as [|c s IH]; intros [|k]; try reflexivity.
  cbn [Re.scan Text.drop]. apply IH.
Qed.

Lemma drop_append : forall a b : string,
  Text.drop (String.length a) (a ++ b) = b.
Proof.
  induction a as [|x a IH]; intros b; cbn; [destruct b; reflexivity | apply IH].
Qed.

Lemma length_append : forall a b : string,
  String.length (a ++ b) = String.length a + String.length b.
Proof.
  induction a as [|x a IH]; intros b; cbn; [|rewrite IH]; reflexivity.
Qed.

(** The three equations of [findall]: nothing in the empty text; a position
    without a match is passed over; a match yields its group and the search
    goes on behind the whole match. *)
Lemma findall_empty : Re.findall p "" = [].
Proof. reflexivity. Qed.

Lemma findall_miss : forall c s,
  Re.match_at p (String c s) = None ->
  Re.findall p (String c s) = Re.findall p s.
Proof.
  unfold Re.findall; intros c s E; cbn [Re.scan]; rewrite E; reflexivity.
Qed.

Lemma findall_hit : forall s g,
  Re.match_at p s = Some g ->
  exists rest : string,
    s = (Re.literal p ++ g ++ rest)%string /\
    Re.findall p s = g :: Re.findall p rest.
Proof.
  intros s g E. destruct (match_at_Some _ _ E) as [[Hne _] [rest Hs]].
  exists rest. split; [exact Hs|].
  unfold Re.findall. destruct s as [|c s].
  - destruct (Re.literal p), g; discriminate.
  - cbn [Re.scan]. rewrite E, scan_skip. do 2 f_equal.
    assert (HL : String.length (Re.literal p ++ g) =
                 S (String.length (Re.literal p) + String.length g - 1)).
    { rewrite length_append. destruct g; [discriminate|]. cbn. lia. }
    change (Text.drop (String.length (Re.literal p) + String.length g - 1) s)
      with (Text.drop (S (String.length (Re.literal p) + String.length g - 1))
                      (String c s)).
    rewrite <- HL, Hs, <- append_assoc. apply drop_append.
Qed.

End Scanner.

(** ** Links between filler text *)

Lemma append_eq_split : forall a b c d : string,
  (a ++ b)%string = (c ++ d)%string ->
  (exists e : string, a = (c ++ e)%string /\ d = (e ++ b)%string) \/
  (exists e : string, c = (a ++ e)%string /\ b = (e ++ d)%string).
Proof.
  induction a as [|x a IH]; intros b c d H.
  - right. exists c. split; [reflexivity | exact H].
  - destruct c as [|y c].
    + left. exists (String x a). split; [reflexivity | symmetry; exact H].
    + cbn in H. injection H as <- H.
      destruct (IH _ _ _ H) as [(e & -> & ->) | (e & -> & ->)];
        [left | right]; exists e; split; reflexivity.
Qed.

Lemma last_char_nonempty : forall s d d',
  s <> ""%string -> Text.last_char d s = Text.last_char d' s.
Proof.
  intros [|c s] d d' H; [contradiction H|]; reflexivity.
Qed.

Lemma last_char_append : forall a b d,
  b <> ""%string -> Text.last_char d (a ++ b) = Text.last_char d b.
Proof.
  induction a as [|x a IH]; intros b d Hb; cbn; [reflexivity|].
  rewrite IH by exact Hb. apply last_char_nonempty, Hb.
Qed.

Lemma mem_last_char : forall s d,
  s <> ""%string -> Text.mem_char (Text.last_char d s) s = true.
Proof.
  induction s as [|c s IH]; intros d H; [contradiction H; reflexivity|].
  cbn. destruct s as [|c' s].
  - cbn. rewrite Ascii.eqb_refl. reflexivity.
  - rewrite (IH c) by discriminate. apply orb_true_r.
Qed.

Lemma mem_char_append_l : forall c a b,
  Text.mem_char c a = true -> Text.mem_char c (a ++ b) = true.
Proof.
  induction a as [|x a IH]; intros b H; cbn in *; [discriminate|].
  apply orb_true_iff in H as [H | H]; [rewrite H; reflexivity|].
  rewrite (IH _ H). apply orb_true_r.
Qed.

Section Filler.

(** [lit] is searched in a filler text followed by [h]; the last character
    of each does not occur in the other. *)
Variables lit h : string.
Hypothesis lit_nonempty : lit <> ""%string.
Hypothesis h_nonempty : h <> ""%string.
Hypothesis h_end : Text.mem_char (Text.last_char "000"%char h) lit = false.
Hypothesis lit_end : Text.mem_char (Text.last_char "000"%char lit) h = false.

Lemma occurs_in_filler : forall F,
  Text.occurs_in lit (F ++ h) -> Text.occurs_in lit F.
Proof.
  intros F (x & y & H). rewrite <- append_assoc in H.
  apply append_eq_split in H as [(e & He & _) | (e & He & Hh)].
  - exists x, e. rewrite He, append_assoc. reflexivity.
  - destruct e as [|c e].
    + exists x, ""%string. rewrite append_empty_r in *. auto.
    + exfalso.
      assert (Hl : Text.last_char "000"%char (String c e)
                   = Text.last_char "000"%char lit).
      { rewrite <- (last_char_append F (String c e)) by discriminate.
        rewrite <- He. apply last_char_append, lit_nonempty. }
      pose proof (mem_last_char (String c e) "000"%char) as Hm.
      rewrite Hl in Hm. subst h.
      rewrite (mem_char_append_l _ _ y) in lit_end; [discriminate|].
      apply Hm; discriminate.
Qed.

Lemma quiet_filler : forall F t, ~ Text.occurs_in lit F -> quiet lit (F ++ h) t.
Proof.
  intros F t HF a b Hab Hb.
  destruct (Text.strip_prefix lit (b ++ t)) as [r|] eqn:E; [|reflexivity].
  exfalso. apply strip_prefix_Some in E.
  apply append_eq_split in E as [(e & He & _) | (e & He & _)].
  - apply HF, occurs_in_filler. exists a, e. rewrite Hab, He. reflexivity.
  - assert (Hl : Text.last_char "000"%char b = Text.last_char "000"%char h).
    { rewrite <- (last_char_append a b) by exact Hb.
      rewrite <- Hab. apply last_char_append, h_nonempty. }
    pose proof (mem_last_char b "000"%char Hb) as Hm.
    rewrite Hl in Hm.
    rewrite He, (mem_char_append_l _ _ e Hm) in h_end. discriminate.
Qed.

End Filler.

Section Quiet.

Variable p : Re.pattern.

(** Text in which no occurrence of the literal starts contributes nothing. *)
Lemma findall_quiet : forall pre t,
  quiet (Re.literal p) pre t -> Re.findall p (pre ++ t) = Re.findall p t.
Proof.
  induction pre as [|c pre IH]; intros t Hq; [reflexivity|].
  cbn [String.append]. rewrite findall_miss.
  - apply IH. intros a b -> Hb. apply (Hq (String c a) b); [reflexivity | exact Hb].
  - assert (E : Text.strip_prefix (Re.literal p) (String c pre ++ t) = None)
      by (apply (Hq ""%string (String c pre) eq_refl); discriminate).
    unfold Re.match_at. cbn [String.append] in E. rewrite E. reflexivity.
Qed.

Lemma span_group : forall g rest,
  Text.all_chars (Re.klass p) g = true ->
  Text.span (Re.klass p) rest = ""%string ->
  Text.span (Re.klass p) (g ++ rest) = g.
Proof.
  induction g as [|c g IH]; intros rest Hg Hr; [exact Hr|].
  cbn in *. apply andb_true_iff in Hg as [Hc Hg].
  rewrite Hc, (IH _ Hg Hr). reflexivity.
Qed.

Lemma append_cancel_l : forall a b c : string,
  (a ++ b)%string = (a ++ c)%string -> b = c.
Proof.
  induction a as [|x a IH]; intros b c H; [exact H|].
  cbn in H. injection H as H. apply IH, H.
Qed.

(** A group behind the literal, ended by a character outside the class, is
    found, and the search goes on behind it. *)
Lemma findall_link : forall g rest,
  group_shape p g ->
  Text.span (Re.klass p) rest = ""%string ->
  Re.findall p (Re.literal p ++ g ++ rest) = g :: Re.findall p rest.
Proof.
  intros g rest [Hne Hall] Hrest.
  assert (E : Re.match_at p (Re.literal p ++ g ++ rest) = Some g).
  { unfold Re.match_at.
    rewrite (proj2 (strip_prefix_Some _ _ (g ++ rest)%string) eq_refl).
    rewrite (span_group _ _ Hall Hrest), Hne. reflexivity. }
  destruct (findall_hit p _ _ E) as (rest' & Hs & ->).
  apply append_cancel_l, append_cancel_l in Hs. subst rest'. reflexivity.
Qed.

End Quiet.

Lemma has_match_occurs : forall p s,
  has_match p s -> Text.occurs_in (Re.literal p) s.
Proof.
  intros p s (pre & c & post & -> & _). exists pre, (String c post). reflexivity.
Qed.

Lemma contains_occurs_in : forall t s,
  Text.contains t s = true <-> Text.occurs_in t s.
Proof.
  intros t s; split.
  - induction s as [|c s IH]; cbn.
    + destruct (Text.strip_prefix t "") as [r|] eqn:E; [|discriminate].
      intros _. apply strip_prefix_Some in E. exists ""%string, r. exact E.
    + destruct (Text.strip_prefix t (String c s)) as [r|] eqn:E.
      * intros _. apply strip_prefix_Some in E. exists ""%string, r. exact E.
      * intros H. apply occurs_in_tail, IH, H.
  - intros (pre & post & ->). induction pre as [|c pre IH].
    + cbn [String.append].
      assert (E : Text.strip_prefix t (t ++ post) = Some post)
        by (apply strip_prefix_Some; reflexivity).
      destruct (t ++ post)%string; cbn; cbn in E; rewrite E; reflexivity.
    + cbn. destruct (Text.strip_prefix t _); [reflexivity | exact IH].
Qed.

(** A page whose only occurrences of /product/ are two links. *)
Lemma findall_two_links : forall pre mid post id1 id2,
  ~ Text.occurs_in "/product/" pre ->
  ~ Text.occurs_in "/product/" mid ->
  ~ Text.occurs_in "/product/" post ->
  group_shape PRODUCT_HREF_RE id1 ->
  group_shape PRODUCT_HREF_RE id2 ->
  Re.findall PRODUCT_HREF_RE
    (pre ++ product_link id1 ++ mid ++ product_link id2 ++ post)
  = [id1; id2].
Proof.
  intros pre mid post id1 id2 Hpre Hmid Hpost H1 H2.
  assert (Hq : forall F t, ~ Text.occurs_in "/product/" F ->
               Re.findall PRODUCT_HREF_RE (F ++ href_open ++ t)
               = Re.findall PRODUCT_HREF_RE t).
  { intros F t HF. rewrite <- append_assoc. apply findall_quiet.
    apply quiet_filler; try exact HF; try discriminate; reflexivity. }
  assert (Hd : forall t, Re.findall PRODUCT_HREF_RE (Text.dquote ++ t)
                         = Re.findall PRODUCT_HREF_RE t).
  { intros t. apply findall_miss. reflexivity. }
  unfold product_link. rewrite !append_assoc.
  rewrite (Hq pre _ Hpre).
  change "/product/" with (Re.literal PRODUCT_HREF_RE) at 1.
  rewrite (findall_link _ _ _ H1) by reflexivity.
  rewrite Hd, (Hq mid _ Hmid).
  change "/product/" with (Re.literal PRODUCT_HREF_RE) at 1.
  rewrite (findall_link _ _ _ H2) by reflexivity.
  rewrite Hd. do 2 f_equal.
  apply scan_no_match. intros H. apply Hpost, (has_match_occurs _ _ H).
Qed.

(** ** What the methods compute *)

Lemma _load_products_run : forall w,
  _load_products w =
  (block_outcome (frontend w (requests w) (index_request true)), loaded w).
Proof.
  intros [[ids cart] f e n d l].
  unfold _load_products, loaded, discover, index_mark, index_failure, marks_of;
    run_py.
  fold (index_request true).
  destruct (f n (index_request true)) as [o c t|err]; cbn; [|reflexivity].
  destruct o; cbn.
  - destruct (Re.findall _ _); cbn; rewrite <- app_assoc; reflexivity.
  - rewrite <- app_assoc; reflexivity.
Qed.

Lemma refreshed_raise_no_ids : forall w e,
  refresh_outcome w = Raise e -> product_ids (self (refreshed w)) = [].
Proof.
  intros w e. unfold refresh_outcome, refreshed, loaded.
  destruct (product_ids (self w)) eqn:E; cbn; [|discriminate].
  destruct (frontend w (requests w) (index_request true)); cbn;
    [discriminate|]. intros _. reflexivity.
Qed.

Lemma _choose_product_run : forall w,
  _choose_product w =
  match refresh_outcome w with
  | Raise e => (Raise e, refreshed w)
  | Ok _ =>
      match product_ids (self (refreshed w)) with
      | [] => (Ok "", refreshed w)
      | x :: xs =>
          (Ok (choice_of x xs (entropy w (draws w))), drawn (refreshed w))
      end
  end.
Proof.
  intros w. unfold _choose_product, refreshed, refresh_outcome.
  unfold bind at 1, get_product_ids at 1, bind at 1, get_self at 1, ret at 1.
  unfold bind at 1.
  destruct (is_nil (product_ids (self w))) eqn:Hnil.
  - rewrite _load_products_run.
    destruct (frontend w (requests w) (index_request true)) as [o c t|err] eqn:Ef;
      cbn [block_outcome]; [|reflexivity].
    destruct w as [[ids cart] f e n d l]; cbn in *. rewrite Ef.
    run_py. destruct o; cbn.
    + destruct (discover _); reflexivity.
    + destruct ids; [reflexivity | discriminate].
  - destruct w as [[ids cart] f e n d l]; cbn in *.
    run_py. destruct ids; [discriminate | reflexivity].
Qed.

Lemma refreshed_cart : forall w,
  cart_items (self (refreshed w)) = cart_items (self w).
Proof.
  intros w; unfold refreshed; destruct (is_nil _); reflexivity.
Qed.

Lemma refreshed_entropy : forall w, entropy (refreshed w) = entropy w.
Proof.
  intros w; unfold refreshed; destruct (is_nil _); reflexivity.
Qed.

Lemma refreshed_draws : forall w, draws (refreshed w) = draws w.
Proof.
  intros w; unfold refreshed; destruct (is_nil _); reflexivity.
Qed.

Lemma refreshed_frontend : forall w, frontend (refreshed w) = frontend w.
Proof.
  intros w; unfold refreshed; destruct (is_nil _); reflexivity.
Qed.

Lemma add_to_cart_run : forall w,
  add_to_cart w =
  match _choose_product w with
  | (Ok pid, w1) =>
      if Text.is_empty pid then (Ok tt, w1)
      else (Ok tt, added w1 pid (randint_of 1 3 (entropy w1 (draws w1))))
  | (Raise e, w1) => (Raise e, w1)
  end.
Proof.
  intros w. unfold add_to_cart. unfold bind at 1.
  destruct (_choose_product w) as [[pid|e] w1]; [|reflexivity].
  destruct (Text.is_empty pid); [reflexivity|].
  destruct w1 as [[ids cart] f e n d l]. run_py. reflexivity.
Qed.

Lemma _choose_product_cart : forall w,
  cart_items (self (snd (_choose_product w))) = cart_items (self w).
Proof.
  intros w. rewrite _choose_product_run.
  destruct (refresh_outcome w); [|apply refreshed_cart].
  destruct (product_ids (self (refreshed w))); cbn; apply refreshed_cart.
Qed.

Lemma _choose_product_entropy : forall w,
  entropy (snd (_choose_product w)) = entropy w.
Proof.
  intros w. rewrite _choose_product_run.
  destruct (refresh_outcome w); [|apply refreshed_entropy].
  destruct (product_ids (self (refreshed w))); cbn; apply refreshed_entropy.
Qed.

Lemma browse_product_run : forall w,
  browse_product w =
  match _choose_product w with
  | (Ok pid, w1) =>
      if Text.is_empty pid then (Ok tt, w1)
      else (Ok tt, sent w1 (product_request pid))
  | (Raise e, w1) => (Raise e, w1)
  end.
Proof.
  intros w. unfold browse_product. unfold bind at 1.
  destruct (_choose_product w) as [[pid|e] w1]; [|reflexivity].
  destruct (Text.is_empty pid); [reflexivity|].
  destruct w1 as [[ids cart] f e n d l]. run_py. reflexivity.
Qed.

Lemma choice_of_In : forall (A : Type) (x : A) xs r, In (choice_of x xs r) (x :: xs).
Proof.
  intros A x xs r. unfold choice_of. apply nth_In.
  apply Nat.mod_upper_bound. discriminate.
Qed.

Lemma discover_nonempty_ids : forall resp pid,
  In pid (discover resp) -> Text.is_empty pid = false.
Proof.
  intros resp pid H. apply (scan_sound PRODUCT_HREF_RE _ 0) in H. apply H.
Qed.

Lemma index_run : forall w, index w = (Ok tt, sent w (index_request false)).
Proof. intros w; reflexivity. Qed.

Lemma view_cart_run : forall w, view_cart w = (Ok tt, sent w cart_request).
Proof. intros w; reflexivity. Qed.

Lemma set_currency_run : forall w,
  set_currency w =
  (Ok tt, sent (drawn w) (currency_request (currency_of (entropy w (draws w))))).
Proof. intros w; reflexivity. Qed.

Lemma checkout_run : forall w,
  checkout w =
  if is_nil (cart_items (self w)) then (Ok tt, w)
  else (block_outcome (frontend w (requests w) checkout_request), checked_out w).
Proof.
  intros [[ids cart] f e n d l]. destruct cart as [|line cart]; [reflexivity|].
  unfold checkout, checked_out, checkout_mark, checkout_failure, marks_of; run_py.
  fold checkout_request.
  destruct (f n checkout_request) as [o c t|err]; cbn; [|reflexivity].
  destruct o; cbn; rewrite <- app_assoc; reflexivity.
Qed.

Lemma on_start_run : forall w,
  on_start w =
  (block_outcome (frontend w (requests w) (index_request true)),
   loaded (with_self (mkSession [] []) w)).
Proof.
  intros w. unfold on_start.
  unfold bind at 1. unfold set_product_ids, bind at 1, get_self, put_self.
  unfold bind at 1. unfold set_cart_items, bind at 1, get_self, put_self.
  cbn [product_ids cart_items self with_self].
  rewrite _load_products_run. reflexivity.
Qed.

Lemma currency_of_In : forall r, In (currency_of r) CURRENCIES.
Proof. intros r. apply choice_of_In. Qed.

Lemma randint_1_3_range : forall r, (1 <= randint_of 1 3 r <= 3)%Z.
Proof.
  intros r. unfold randint_of. change (Z.to_nat (3 - 1 + 1)) with 3.
  pose proof (Nat.mod_upper_bound r 3). lia.
Qed.

(** What a task can do to the cart: nothing, empty it, or put one line
    with a drawn quantity at its end. *)
Lemma task_cart_effect : forall t w,
  cart_items (self (snd (task_body t w))) = cart_items (self w) \/
  cart_items (self (snd (task_body t w))) = [] \/
  exists pid r,
    cart_items (self (snd (task_body t w)))
    = cart_items (self w) ++ [(pid, randint_of 1 3 r)].
Proof.
  intros [] w; cbn [task_body]; try (left; reflexivity).
  - left. rewrite browse_product_run.
    pose proof (_choose_product_cart w) as Hc.
    destruct (_choose_product w) as [[pid|e] w1]; cbn in *; [|exact Hc].
    destruct (Text.is_empty pid); exact Hc.
  - rewrite add_to_cart_run.
    pose proof (_choose_product_cart w) as Hc.
    destruct (_choose_product w) as [[pid|e] w1]; cbn in *; [|left; exact Hc].
    destruct (Text.is_empty pid); [left; exact Hc|].
    right; right. exists pid, (entropy w1 (draws w1)). cbn. rewrite Hc.
    reflexivity.
  - rewrite checkout_run. destruct (is_nil _); [left; reflexivity|].
    cbn. destruct (ok _); [right; left | left]; reflexivity.
Qed.

(** ** The log of one cycle *)

Lemma refreshed_log : forall w, log (refreshed w) = log w ++ refresh_events w.
Proof.
  intros w. unfold refreshed, refresh_events.
  destruct (is_nil _); [reflexivity | symmetry; apply app_nil_r].
Qed.

Lemma count_sent_marks_of : forall resp m,
  is_sent m = false -> count_sent (marks_of resp m) = 0.
Proof.
  intros resp m H. unfold marks_of, count_sent.
  destruct (answered resp); cbn; [rewrite H|]; reflexivity.
Qed.

Lemma is_sent_index_mark : forall resp, is_sent (index_mark resp) = false.
Proof. intros resp. unfold index_mark. destruct (ok resp); reflexivity. Qed.

Lemma is_sent_checkout_mark : forall resp, is_sent (checkout_mark resp) = false.
Proof. intros resp. unfold checkout_mark. destruct (ok resp); reflexivity. Qed.

Lemma count_sent_cons_sent : forall rq s es,
  count_sent (Sent rq s :: es) = S (count_sent es).
Proof. reflexivity. Qed.

Lemma count_sent_refresh_events : forall w,
  count_sent (refresh_events w) = if is_nil (product_ids (self w)) then 1 else 0.
Proof.
  intros w. unfold refresh_events.
  destruct (is_nil _); [|reflexivity].
  rewrite count_sent_cons_sent, count_sent_marks_of by apply is_sent_index_mark.
  reflexivity.
Qed.

Lemma refreshed_requests : forall w,
  requests (refreshed w) = requests w + count_sent (refresh_events w).
Proof.
  intros w. rewrite count_sent_refresh_events. unfold refreshed.
  destruct (is_nil _); cbn; lia.
Qed.

Lemma chosen_empty_list : forall w,
  product_ids (self (refreshed w)) = [] -> chosen w = "".
Proof. intros w H. unfold chosen. rewrite H. reflexivity. Qed.

Lemma chosen_after_raise : forall w e, refresh_outcome w = Raise e -> chosen w = "".
Proof.
  intros w e H. apply chosen_empty_list. exact (refreshed_raise_no_ids w e H).
Qed.

(** [_choose_product] in terms of the refresh and the choice. *)
Lemma _choose_product_chosen : forall w,
  _choose_product w =
  match refresh_outcome w with
  | Raise e => (Raise e, refreshed w)
  | Ok _ =>
      (Ok (chosen w),
       if is_nil (product_ids (self (refreshed w))) then refreshed w
       else drawn (refreshed w))
  end.
Proof.
  intros w. rewrite _choose_product_run. unfold chosen.
  destruct (refresh_outcome w); [|reflexivity].
  destruct (product_ids (self (refreshed w))); reflexivity.
Qed.

Lemma chosen_nonempty_not_nil : forall w,
  Text.is_empty (chosen w) = false ->
  is_nil (product_ids (self (refreshed w))) = false.
Proof.
  intros w H. destruct (product_ids (self (refreshed w))) eqn:E; [|reflexivity].
  rewrite (chosen_empty_list w E) in H. discriminate.
Qed.

(** How each task ends. *)
Lemma task_body_outcome : forall t w, fst (task_body t w) = task_outcome t w.
Proof.
  intros [] w; cbn [task_body task_outcome]; try reflexivity.
  - rewrite browse_product_run, _choose_product_chosen.
    destruct (refresh_outcome w) as [[]|e]; [|reflexivity].
    destruct (Text.is_empty _); reflexivity.
  - rewrite add_to_cart_run, _choose_product_chosen.
    destruct (refresh_outcome w) as [[]|e]; [|reflexivity].
    destruct (Text.is_empty _); reflexivity.
  - rewrite checkout_run. destruct (is_nil _); reflexivity.
Qed.

(** What each task appends to the log. *)
Lemma task_log : forall t w,
  log (snd (task_body t w)) = log w ++ task_events t w.
Proof.
  intros [] w; cbn [task_body task_events]; try reflexivity.
  - rewrite browse_product_run, _choose_product_chosen.
    destruct (refresh_outcome w) eqn:Er.
    + destruct (Text.is_empty (chosen w)) eqn:E; cbn [snd].
      * rewrite app_nil_r. destruct (is_nil _); cbn; apply refreshed_log.
      * rewrite (chosen_nonempty_not_nil w E). cbn.
        rewrite refreshed_log, app_assoc. reflexivity.
    + cbn [snd]. rewrite (chosen_after_raise w e Er). cbn [Text.is_empty].
      rewrite app_nil_r. apply refreshed_log.
  - rewrite add_to_cart_run, _choose_product_chosen.
    destruct (refresh_outcome w) eqn:Er.
    + destruct (Text.is_empty (chosen w)) eqn:E; cbn [snd].
      * rewrite app_nil_r. destruct (is_nil _); cbn; apply refreshed_log.
      * rewrite (chosen_nonempty_not_nil w E). cbn.
        rewrite refreshed_log, refreshed_cart, refreshed_entropy,
          refreshed_draws, <- app_assoc. reflexivity.
    + cbn [snd]. rewrite (chosen_after_raise w e Er). cbn [Text.is_empty].
      rewrite app_nil_r. apply refreshed_log.
  - rewrite checkout_run. destruct (is_nil _); cbn; [rewrite app_nil_r|];
      reflexivity.
Qed.

Lemma replay_app : forall es1 es2 cart,
  replay (es1 ++ es2) cart = replay es2 (replay es1 cart).
Proof. intros; apply fold_left_app. Qed.

Lemma count_sent_app : forall es1 es2,
  count_sent (es1 ++ es2) = count_sent es1 + count_sent es2.
Proof.
  intros; unfold count_sent. rewrite filter_app, length_app. reflexivity.
Qed.

Lemma replay_index_marks : forall resp cart,
  replay (marks_of resp (index_mark resp)) cart = cart.
Proof.
  intros resp cart. unfold marks_of, index_mark, index_failure.
  destruct (answered resp); [|reflexivity].
  destruct (ok resp); reflexivity.
Qed.

Lemma replay_refresh_events : forall w cart,
  replay (refresh_events w) cart = cart.
Proof.
  intros w cart. unfold refresh_events.
  destruct (is_nil _); [|reflexivity].
  exact (replay_index_marks _ cart).
Qed.

Lemma refreshed_product_ids : forall w,
  product_ids (self (refreshed w)) =
  if is_nil (product_ids (self w)) then
    (if ok (frontend w (requests w) (index_request true))
     then discover (frontend w (requests w) (index_request true))
     else [])
  else product_ids (self w).
Proof.
  intros w. unfold refreshed.
  destruct (is_nil (product_ids (self w))) eqn:E; [|reflexivity].
  cbn. destruct (ok _); [reflexivity|].
  destruct (product_ids (self w)); [reflexivity | discriminate].
Qed.

(** The session a task leaves behind. *)
Lemma task_self : forall t w,
  self (snd (task_body t w)) =
  match t with
  | TaskBrowseProduct => mkSession (product_ids (self (refreshed w)))
                                   (cart_items (self w))
  | TaskAddToCart =>
      mkSession (product_ids (self (refreshed w)))
                (if Text.is_empty (chosen w) then cart_items (self w)
                 else cart_items (self w) ++ [(chosen w, drawn_quantity w)])
  | TaskCheckout =>
      mkSession (product_ids (self w))
                (if is_nil (cart_items (self w)) then []
                 else if ok (frontend w (requests w) checkout_request) then []
                      else cart_items (self w))
  | _ => self w
  end.
Proof.
  assert (eta : forall s, s = mkSession (product_ids s) (cart_items s))
    by (intros []; reflexivity).
  intros [] w; cbn [task_body]; try reflexivity.
  - rewrite browse_product_run, _choose_product_chosen.
    rewrite <- (refreshed_cart w).
    destruct (refresh_outcome w); [|apply eta].
    destruct (Text.is_empty (chosen w)), (is_nil _); cbn; apply eta.
  - rewrite add_to_cart_run, _choose_product_chosen.
    destruct (refresh_outcome w) eqn:Er.
    + destruct (Text.is_empty (chosen w)) eqn:E; cbn [snd].
      * rewrite <- (refreshed_cart w). destruct (is_nil _); cbn; apply eta.
      * rewrite (chosen_nonempty_not_nil w E). cbn.
        rewrite refreshed_cart, refreshed_entropy, refreshed_draws.
        reflexivity.
    + cbn [snd]. rewrite (chosen_after_raise w e Er). cbn [Text.is_empty].
      rewrite <- (refreshed_cart w). apply eta.
  - rewrite checkout_run.
    destruct (cart_items (self w)) eqn:Ec; cbn.
    + rewrite <- Ec. apply eta.
    + rewrite Ec. reflexivity.
Qed.

Lemma task_requests : forall t w,
  requests (snd (task_body t w)) = requests w + count_sent (task_events t w).
Proof.
  intros [] w; cbn [task_body task_events]; try (cbn; lia).
  - rewrite browse_product_run, _choose_product_chosen.
    rewrite count_sent_app.
    destruct (refresh_outcome w) eqn:Er.
    + destruct (Text.is_empty (chosen w)),
        (is_nil (product_ids (self (refreshed w))));
        cbn; rewrite refreshed_requests; lia.
    + cbn [snd]. rewrite (chosen_after_raise w e Er). cbn.
      rewrite refreshed_requests; lia.
  - rewrite add_to_cart_run, _choose_product_chosen.
    rewrite count_sent_app.
    destruct (refresh_outcome w) eqn:Er.
    + destruct (Text.is_empty (chosen w)),
        (is_nil (product_ids (self (refreshed w))));
        cbn; rewrite refreshed_requests; lia.
    + cbn [snd]. rewrite (chosen_after_raise w e Er). cbn.
      rewrite refreshed_requests; lia.
  - rewrite checkout_run.
    destruct (is_nil _); cbn [snd]; [cbn; lia|].
    rewrite count_sent_cons_sent, count_sent_marks_of
      by apply is_sent_checkout_mark.
    cbn. lia.
Qed.

Lemma replay_checkout_marks : forall resp cart,
  replay (marks_of resp (checkout_mark resp)) cart
  = if ok resp then [] else cart.
Proof.
  intros [o c t|err] cart; [destruct o|]; reflexivity.
Qed.

Lemma task_cart_replay : forall t w,
  cart_items (self (snd (task_body t w)))
  = replay (task_events t w) (cart_items (self w)).
Proof.
  intros t w. rewrite task_self.
  destruct t; cbn [task_events cart_items]; try reflexivity.
  - rewrite replay_app, replay_refresh_events.
    destruct (Text.is_empty _); reflexivity.
  - rewrite replay_app, replay_refresh_events.
    destruct (Text.is_empty _); reflexivity.
  - destruct (is_nil _) eqn:E.
    + destruct (cart_items (self w)); [reflexivity | discriminate].
    + change (replay (Sent checkout_request (self w) :: ?l) ?c)
        with (replay l c).
      rewrite replay_checkout_marks. reflexivity.
Qed.

(** ** Runs *)

Lemma run_tasks_cons : forall t ts w,
  run_tasks (t :: ts) w = run_tasks ts (snd (task_body t w)).
Proof. reflexivity. Qed.

Lemma run_tasks_ok : forall ts w, fst (run_tasks ts w) = Ok tt.
Proof.
  induction ts as [|t ts IH]; intros w; [reflexivity | apply IH].
Qed.

(** The world at the end of a schedule: each task run in turn, from the
    world the one before it left. *)
Lemma run_tasks_fold : forall ts w,
  snd (run_tasks ts w) = fold_left (fun w' t => snd (task_body t w')) ts w.
Proof.
  induction ts as [|t ts IH]; intros w; [reflexivity | apply IH].
Qed.

Lemma run_user_tasks : forall ts w,
  run_user ts w =
  match block_outcome (frontend w (requests w) (index_request true)) with
  | Ok _ => run_tasks ts (snd (on_start w))
  | Raise e => (Raise e, snd (on_start w))
  end.
Proof.
  intros ts w. unfold run_user, bind. rewrite on_start_run. cbn [snd].
  destruct (block_outcome _); reflexivity.
Qed.

Lemma run_tasks_runs_to : forall ts w, runs_to w (snd (run_tasks ts w)).
Proof.
  intros ts w. assert (H : forall w', runs_to w w' ->
                           runs_to w (snd (run_tasks ts w'))).
  { induction ts as [|t ts IH]; intros w' Hw'; [exact Hw'|].
    rewrite run_tasks_cons. apply IH. constructor. exact Hw'. }
  apply H. constructor.
Qed.

Lemma runs_to_reachable : forall w w', reachable w -> runs_to w w' -> reachable w'.
Proof.
  intros w w' Hw H. induction H; [exact Hw | constructor; assumption].
Qed.

Lemma discover_group_shape : forall resp,
  Forall (group_shape PRODUCT_HREF_RE) (discover resp).
Proof.
  intros resp. apply Forall_forall. intros id H.
  apply (scan_sound PRODUCT_HREF_RE _ 0 id H).
Qed.

Lemma chosen_In : forall w,
  product_ids (self (refreshed w)) <> [] ->
  In (chosen w) (product_ids (self (refreshed w))).
Proof.
  intros w H. unfold chosen.
  destruct (product_ids (self (refreshed w))); [contradiction H; reflexivity|].
  apply choice_of_In.
Qed.

Lemma chosen_nonempty_list : forall w,
  Text.is_empty (chosen w) = false -> product_ids (self (refreshed w)) <> [].
Proof.
  intros w H E. rewrite (chosen_empty_list w E) in H. discriminate.
Qed.

(** The invariant of a session: the known ids have the shape of the
    pattern's group, and the cart only holds known ids. *)
Lemma reachable_invariant : forall w,
  reachable w ->
  Forall (group_shape PRODUCT_HREF_RE) (product_ids (self w)) /\
  (forall line, In line (cart_items (self w)) ->
                In (fst line) (product_ids (self w))).
Proof.
  induction 1 as [w0 | w t Hw [IHs IHc]].
  - rewrite on_start_run. cbn. split; [|intros line []].
    destruct (ok _); [apply discover_group_shape | constructor].
  - assert (Hids : Forall (group_shape PRODUCT_HREF_RE)
                          (product_ids (self (refreshed w)))).
    { rewrite refreshed_product_ids. destruct (is_nil _); [|exact IHs].
      destruct (ok _); [apply discover_group_shape | constructor]. }
    assert (Hcart : forall line, In line (cart_items (self w)) ->
                    In (fst line) (product_ids (self (refreshed w)))).
    { intros line Hl. rewrite refreshed_product_ids.
      generalize (IHc line Hl).
      destruct (product_ids (self w)); [intros [] | intros Hi; exact Hi]. }
    rewrite task_self. destruct t; cbn; try (split; assumption).
    + split; [exact Hids|].
      destruct (Text.is_empty (chosen w)) eqn:E; [exact Hcart|].
      intros line Hl. apply in_app_or in Hl as [Hl | [<- | []]]; [auto|].
      apply chosen_In, chosen_nonempty_list, E.
    + split; [exact IHs|].
      destruct (is_nil _); [intros line []|].
      destruct (ok _); [intros line [] | exact IHc].
Qed.

(** ** Counting the draws of the selector *)

Lemma sum_weights_nonneg : forall l, weights_nonnegative l -> (0 <= sum_weights l)%Z.
Proof.
  induction 1 as [|d l Hd _ IH]; cbn in *; lia.
Qed.

Lemma filter_const_length : forall (A : Type) (b : bool) (l : list A),
  length (filter (fun _ => b) l) = if b then length l else 0.
Proof.
  intros A b l. induction l as [|x l IH]; cbn; [destruct b; reflexivity|].
  destruct b; cbn; [rewrite IH|]; auto.
Qed.

(** A value inside the cumulative range of the table is located. *)
Lemma locate_in_range : forall l below v,
  weights_nonnegative l ->
  (below <= v < below + sum_weights l)%Z ->
  exists d, locate l below v = Some d /\ In d l.
Proof.
  induction l as [|d l IH]; intros below v Hl Hv; cbn in *; [lia|].
  inversion Hl as [|? ? Hd Hl']; subst.
  destruct ((below <=? v) && (v <? below + weight d))%Z eqn:E.
  - exists d; auto.
  - destruct (IH (below + weight d)%Z v Hl') as (d' & Hd' & Hin); [lia|].
    exists d'; auto.
Qed.

(** Counting the draws of one period that hit the name [nm]: as many as
    the weight the table gives that name. *)
Lemma count_located : forall l nm base,
  weights_nonnegative l ->
  length (filter (fun r => hits nm (locate l (Z.of_nat base) (Z.of_nat r)))
                 (seq base (Z.to_nat (sum_weights l))))
  = Z.to_nat (weight_named nm l).
Proof.
  induction l as [|d l IH]; intros nm base Hl; [reflexivity|].
  inversion Hl as [|? ? Hd Hl']; subst.
  pose proof (sum_weights_nonneg l Hl') as HT.
  change (sum_weights (d :: l)) with (weight d + sum_weights l)%Z.
  rewrite Z2Nat.inj_add, seq_app, filter_app, length_app by lia.
  rewrite (filter_ext_in _ (fun _ => String.eqb (action_name d) nm)).
  2: { intros r Hr. apply in_seq in Hr. cbn [locate].
       replace ((Z.of_nat base <=? Z.of_nat r)
                && (Z.of_nat r <? Z.of_nat base + weight d))%Z with true
         by (symmetry; apply andb_true_iff; split;
             [apply Z.leb_le | apply Z.ltb_lt]; lia).
       reflexivity. }
  rewrite filter_const_length, length_seq.
  rewrite (filter_ext_in _
             (fun r => hits nm (locate l (Z.of_nat (base + Z.to_nat (weight d)))
                                         (Z.of_nat r)))).
  2: { intros r Hr. apply in_seq in Hr. cbn [locate].
       replace ((Z.of_nat base <=? Z.of_nat r)
                && (Z.of_nat r <? Z.of_nat base + weight d))%Z with false
         by (symmetry; apply andb_false_iff; right; apply Z.ltb_ge; lia).
       replace (Z.of_nat base + weight d)%Z
         with (Z.of_nat (base + Z.to_nat (weight d))) by lia.
       reflexivity. }
  rewrite IH by exact Hl'.
  unfold weight_named. cbn [filter].
  destruct (String.eqb (action_name d) nm); [|reflexivity].
  cbn [sum_weights].
  rewrite Z2Nat.inj_add; [reflexivity | lia |].
  apply sum_weights_nonneg. unfold weights_nonnegative in *.
  rewrite Forall_forall in *. intros x Hx. apply filter_In in Hx. apply Hl', Hx.
Qed.

Lemma filter_name_absent : forall l nm,
  ~ In nm (map action_name l) ->
  filter (fun d => String.eqb (action_name d) nm) l = [].
Proof.
  induction l as [|z l IH]; intros nm Hnm; [reflexivity|]. cbn.
  destruct (String.eqb_spec (action_name z) nm) as [E|E].
  - exfalso. apply Hnm. left. exact E.
  - apply IH. intro H. apply Hnm. right. exact H.
Qed.

(** With distinct names, the weight of a name is the weight of its
    descriptor. *)
Lemma weight_named_unique : forall l d,
  NoDup (map action_name l) -> In d l ->
  weight_named (action_name d) l = weight d.
Proof.
  unfold weight_named.
  induction l as [|x l IH]; intros d Hnd Hin; [destruct Hin|].
  cbn in Hnd. inversion Hnd as [|? ? Hx Hnd']; subst.
  cbn [filter]. destruct Hin as [-> | Hin].
  - rewrite String.eqb_refl. cbn. rewrite (filter_name_absent _ _ Hx). cbn. lia.
  - destruct (String.eqb_spec (action_name x) (action_name d)) as [E|E].
    + exfalso. apply Hx. rewrite E. apply in_map, Hin.
    + apply IH; assumption.
Qed.

Lemma build_registry_inl : forall ds reg,
  build_registry ds = inl reg ->
  reg = mkRegistry ds (sum_weights ds) /\ (0 < sum_weights ds)%Z.
Proof.
  unfold build_registry; intros ds reg H.
  destruct (0 <? sum_weights ds)%Z eqn:E; [|discriminate].
  injection H as <-. split; [reflexivity | apply Z.ltb_lt, E].
Qed.

Lemma frequency_weight_named : forall ds nm,
  weights_nonnegative ds ->
  (0 < sum_weights ds)%Z ->
  Z.of_nat (frequency (mkRegistry ds (sum_weights ds)) nm) = weight_named nm ds.
Proof.
  intros ds nm Hds HT. unfold frequency. cbn [total_weight].
  rewrite (filter_ext_in _ (fun r => hits nm (locate ds (Z.of_nat 0) (Z.of_nat r)))).
  - rewrite count_located by exact Hds. apply Z2Nat.id.
    apply sum_weights_nonneg. unfold weights_nonnegative in *.
    rewrite Forall_forall in *. intros x Hx. apply filter_In in Hx. apply Hds, Hx.
  - intros r Hr. apply in_seq in Hr. unfold picks, select_action, hits.
    cbn [descriptors total_weight]. rewrite Z.mod_small by lia. reflexivity.
Qed.

(** * The behaviour of a simulated user *)

(** ** Checkout *)

(** C1.  [checkout] on an empty cart returns at once: no request goes out and
    the world (session, counters, log) is the one it started in.  On a
    non-empty cart it sends exactly one request, the POST of the fixed
    payload to /cart/checkout, and nothing but marks of that request
    follows it in the log.  When reading [resp.ok] gives true, the
    response is marked a success and the cart is empty afterwards.  In
    every other case the cart is the list it was before the call: on an
    answer that is not ok the failure is reported and the call returns; on
    a refused request the read raises the stored error and nothing is
    marked.  The known product ids are untouched in every case. *)
Theorem checkout_cart_effect : forall w : World,
  (cart_items (self w) = [] -> checkout w = (Ok tt, w)) /\
  (cart_items (self w) <> [] ->
   forall resp w',
     resp = frontend w (requests w) checkout_request ->
     w' = snd (checkout w) ->
     requests w' = S (requests w) /\
     product_ids (self w') = product_ids (self w) /\
     appended w w'
       (Sent checkout_request (self w) :: marks_of resp (checkout_mark resp)) /\
     count_sent (marks_of resp (checkout_mark resp)) = 0 /\
     (ok resp = true ->
        fst (checkout w) = Ok tt /\
        appended w w' [Sent checkout_request (self w); Success "cart:checkout"] /\
        cart_items (self w') = []) /\
     (ok resp = false -> cart_items (self w') = cart_items (self w)) /\
     (answered resp = true -> ok resp = false ->
        fst (checkout w) = Ok tt /\
        appended w w' [Sent checkout_request (self w); checkout_failure resp]) /\
     (forall e, resp = Refused e ->
        fst (checkout w) = Raise (Transport e) /\
        appended w w' [Sent checkout_request (self w)])).
Proof.
  intros w; split.
  - intros H. rewrite checkout_run, H. reflexivity.
  - intros Hne resp w' -> ->. rewrite checkout_run.
    destruct (cart_items (self w)) as [|line cart] eqn:Ec; [congruence|].
    cbn [is_nil fst snd].
    unfold appended, checked_out, marks_of, checkout_mark, checkout_failure.
    cbn [requests self product_ids cart_items log]. rewrite Ec.
    destruct (frontend w (requests w) checkout_request) as [o c t|err];
      [destruct o|]; cbn;
      repeat split; intros; try discriminate; try reflexivity.
    match goal with H : Refused _ = Refused _ |- _ => injection H as -> end.
    reflexivity.
Qed.

(** ** Adding to the cart *)

(** C2.  When [add_to_cart] selects a product, the line (product, quantity)
    is put at the end of the cart and all earlier lines stay as they were,
    whether or not one of them is for the same product.  The POST to /cart
    that follows is issued with the line already in the cart, and the cart
    after the call does not depend on how the frontend answers.  Two calls
    in a row that both select the same product therefore leave two separate
    lines, in call order. *)
Theorem add_to_cart_appends_line :
  (forall w pid qty,
     selects w pid qty ->
     forall w1 w' line,
       w1 = snd (_choose_product w) ->
       w' = snd (add_to_cart w) ->
       line = (pid, qty) ->
       fst (add_to_cart w) = Ok tt /\
       cart_items (self w') = cart_items (self w) ++ [line] /\
       product_ids (self w') = product_ids (self w1) /\
       requests w' = S (requests w1) /\
       appended w1 w'
         [Sent (add_request pid qty)
               (mkSession (product_ids (self w1)) (cart_items (self w) ++ [line]))]) /\
  (forall w pid q1 q2,
     selects w pid q1 ->
     selects (snd (add_to_cart w)) pid q2 ->
     cart_items (self (snd ((add_to_cart ;; add_to_cart) w)))
     = cart_items (self w) ++ [(pid, q1); (pid, q2)]).
Proof.
  assert (one : forall w pid qty, selects w pid qty ->
            add_to_cart w = (Ok tt, added (snd (_choose_product w)) pid qty)).
  { intros w pid qty (Hpid & Hne & Hq).
    rewrite add_to_cart_run.
    pose proof (_choose_product_entropy w) as He.
    destruct (_choose_product w) as [[p|x] w1]; cbn in *; [|discriminate].
    injection Hpid as ->. rewrite Hne, He, Hq. reflexivity. }
  split.
  - intros w pid qty Hsel w1 w' line -> -> ->.
    rewrite (one _ _ _ Hsel).
    pose proof (_choose_product_cart w) as Hc.
    remember (snd (_choose_product w)) as w1 eqn:E1; clear E1.
    unfold appended; cbn. rewrite Hc.
    repeat split; reflexivity.
  - intros w pid q1 q2 H1 H2.
    unfold bind. rewrite (one _ _ _ H1) in *.
    pose proof (_choose_product_cart w) as Hc1.
    remember (snd (_choose_product w)) as w1 eqn:E1; clear E1.
    cbn [snd] in H2. rewrite (one _ _ _ H2).
    pose proof (_choose_product_cart (added w1 pid q1)) as Hc2.
    remember (snd (_choose_product (added w1 pid q1))) as w2 eqn:E2; clear E2.
    cbn in *. rewrite Hc2, Hc1, <- app_assoc. reflexivity.
Qed.

(** ** Catalog discovery *)


(** ** Browsing with an empty catalog *)

(** The requests [browse_product] adds to the log. *)
Lemma browse_product_requests : forall w rq s,
  In (Sent rq s) (log (snd (browse_product w))) ->
  In (Sent rq s) (log w) \/
  rq = index_request true \/
  exists pid, Text.is_empty pid = false /\ rq = product_request pid.
Proof.
  intros w rq s. rewrite browse_product_run, _choose_product_run.
  assert (Hs : In (Sent rq s) (log (refreshed w)) ->
               In (Sent rq s) (log w) \/ rq = index_request true \/
               exists pid, Text.is_empty pid = false /\ rq = product_request pid).
  { unfold refreshed. destruct (is_nil _); [|auto].
    unfold loaded, marks_of, index_mark, index_failure; cbn.
    rewrite in_app_iff; cbn.
    intros [H | [[= <- <-] | H]]; auto.
    destruct (answered _); [|destruct H].
    destruct H as [H | []]. destruct (ok _); discriminate. }
  destruct (refresh_outcome w); [|exact Hs].
  destruct (product_ids (self (refreshed w))) as [|x xs]; cbn [snd fst].
  - exact Hs.
  - destruct (Text.is_empty (choice_of x xs _)) eqn:Hne; cbn [snd].
    + exact Hs.
    + cbn. rewrite in_app_iff; cbn. intros [H | [[= <- <-] | []]]; [auto|].
      right; right. eexists; split; [exact Hne | reflexivity].
Qed.

(** C4 (as the code has it).  With no product id known, [browse_product]
    makes one re-discovery attempt: one GET of the index page, and no
    second one.  When that request is answered, the answer is marked a
    success if it is [ok] (its body is then searched) and a failure
    otherwise, and the call returns.  If no id is known afterwards the
    cycle ends there: the request and its mark are all that was logged, so
    no product page was requested and the only failure reported is the one
    of the index request itself.  If ids were found, one of them is
    requested.  From any state, a product page request of [browse_product]
    carries a non-empty id. *)
Theorem browse_product_empty_catalog :
  (forall w resp w',
     product_ids (self w) = [] ->
     resp = frontend w (requests w) (index_request true) ->
     w' = snd (browse_product w) ->
     (exists rest,
        appended w w' (Sent (index_request true) (self w) :: rest) /\
        forall s, ~ In (Sent (index_request true) s) rest) /\
     product_ids (self w') = (if ok resp then discover resp else []) /\
     (answered resp = true ->
        fst (browse_product w) = Ok tt /\
        (product_ids (self w') = [] ->
           appended w w' [Sent (index_request true) (self w); index_mark resp] /\
           requests w' = S (requests w)) /\
        (product_ids (self w') <> [] ->
           exists pid,
             In pid (discover resp) /\ Text.is_empty pid = false /\
             appended w w' [Sent (index_request true) (self w); Success "index";
                            Sent (product_request pid) (self w')] /\
             requests w' = S (S (requests w))))) /\
  (forall w rq s,
     In (Sent rq s) (log (snd (browse_product w))) ->
     In (Sent rq s) (log w) \/
     rq = index_request true \/
     exists pid, Text.is_empty pid = false /\ rq = product_request pid) /\
  (forall w s,
     In (Sent (product_request "") s) (log (snd (browse_product w))) ->
     In (Sent (product_request "") s) (log w)).
Proof.
  split; [| split; [exact browse_product_requests |]].
  - intros w resp w' Hnil -> ->.
    change (browse_product w) with (task_body TaskBrowseProduct w).
    set (resp := frontend w (requests w) (index_request true)).
    assert (Hids : product_ids (self (refreshed w))
                   = if ok resp then discover resp else []).
    { rewrite refreshed_product_ids, Hnil. reflexivity. }
    assert (Hre : refresh_events w
                  = Sent (index_request true) (self w)
                    :: marks_of resp (index_mark resp)).
    { unfold refresh_events. rewrite Hnil. reflexivity. }
    assert (Hself : self (snd (task_body TaskBrowseProduct w))
                    = self (refreshed w)).
    { rewrite task_self, <- (refreshed_cart w).
      destruct (self (refreshed w)); reflexivity. }
    unfold appended.
    rewrite task_log, task_requests, task_body_outcome, Hself.
    cbn [task_events task_outcome]. rewrite Hre, Hids.
    split; [|split; [reflexivity|]].
    + eexists. split; [reflexivity|].
      intros s Hin. apply in_app_or in Hin as [Hin | Hin].
      * unfold marks_of, index_mark, index_failure in Hin.
        destruct (answered resp); [|destruct Hin].
        destruct Hin as [Hin | []]. destruct (ok resp); discriminate.
      * destruct (Text.is_empty (chosen w)); [destruct Hin|].
        destruct Hin as [Hin | []]. discriminate.
    + intros Hans. unfold refresh_outcome. rewrite Hnil. cbn [is_nil].
      fold resp. unfold marks_of. rewrite Hans.
      split; [destruct resp; [reflexivity | discriminate]|]. split.
      * intros E. rewrite <- Hids in E. rewrite (chosen_empty_list w E).
        cbn [Text.is_empty]. rewrite app_nil_r. split; [reflexivity|].
        unfold count_sent. cbn [filter is_sent].
        rewrite is_sent_index_mark. cbn. lia.
      * intros Hne.
        assert (Hne' : product_ids (self (refreshed w)) <> [])
          by (rewrite Hids; exact Hne).
        assert (Hok : ok resp = true)
          by (destruct (ok resp); [reflexivity | contradiction Hne; reflexivity]).
        pose proof (chosen_In w Hne') as Hin. rewrite Hids, Hok in Hin.
        assert (Hc : Text.is_empty (chosen w) = false)
          by (exact (discover_nonempty_ids resp _ Hin)).
        exists (chosen w). rewrite Hc. unfold index_mark. rewrite Hok.
        split; [exact Hin|]. split; [reflexivity|].
        split; [reflexivity | cbn; lia].
  - intros w s H.
    destruct (browse_product_requests _ _ _ H) as [H1 | [H1 | (pid & Hne & H1)]];
      [exact H1 | discriminate |].
    injection H1 as H1. subst pid. discriminate.
Qed.

(** C4, as stated, on a frontend that is down: the product list is empty
    before and after [browse_product], and the log holds a reported
    failure. *)
Lemma browse_product_reports_failed_refresh :
  product_ids (self offline_world) = [] /\
  log offline_world = [] /\
  product_ids (self (snd (browse_product offline_world))) = [] /\
  log (snd (browse_product offline_world)) =
    [Sent (index_request true) (mkSession [] []);
     Failure "index" "Index failed with 503"].
Proof. repeat split; reflexivity. Qed.

(** ** The weighted selector and the registry *)

(** C5.  For a registry built from a table of non-negative weights, every
    draw selects a descriptor of the table, the selection depends only on
    the drawn value in [0, total_weight), and among the total_weight
    equally likely values exactly weight_i select action i (for distinct
    names; in general a name gets the sum of the weights given to it).  So
    action i is picked with probability weight_i / total_weight.  The table
    of the program is index 1, setCurrency 2, browseProduct 10, addToCart 2,
    viewCart 3, checkout 1; its total is 19 and 10 of the 19 values select
    browseProduct. *)
Theorem weighted_selection_frequencies :
  (forall ds reg,
     build_registry ds = inl reg ->
     weights_nonnegative ds ->
     total_weight reg = sum_weights ds /\
     (forall r, exists d, select_action reg r = Some d /\ In d ds) /\
     (forall r, select_action reg (r + Z.to_nat (total_weight reg))
                = select_action reg r) /\
     (forall nm, Z.of_nat (frequency reg nm) = weight_named nm ds) /\
     (NoDup (map action_name ds) ->
      forall d, In d ds -> Z.of_nat (frequency reg (action_name d)) = weight d)) /\
  map (fun d => (action_name d, weight d)) registry_table
  = [("index", 1); ("setCurrency", 2); ("browseProduct", 10);
     ("addToCart", 2); ("viewCart", 3); ("checkout", 1)]%Z /\
  (exists reg,
     build_registry registry_table = inl reg /\
     total_weight reg = 19%Z /\
     frequency reg "browseProduct" = 10).
Proof.
  split; [|split; [reflexivity | eexists; repeat split; reflexivity]].
  intros ds reg Hb Hds. apply build_registry_inl in Hb as [-> HT].
  split; [reflexivity|]. split; [|split; [|split]].
  - intros r. unfold select_action. cbn [descriptors total_weight].
    apply locate_in_range; [exact Hds|].
    pose proof (Z.mod_pos_bound (Z.of_nat r) (sum_weights ds) HT). lia.
  - intros r. unfold select_action. cbn [descriptors total_weight].
    rewrite Nat2Z.inj_add, Z2Nat.id by lia.
    replace (Z.of_nat r + sum_weights ds)%Z
      with (Z.of_nat r + 1 * sum_weights ds)%Z by lia.
    rewrite Z_mod_plus_full. reflexivity.
  - intros nm. apply frequency_weight_named; assumption.
  - intros Hnd d Hin. rewrite frequency_weight_named by assumption.
    apply weight_named_unique; assumption.
Qed.

(** C6.  Building the registry from an empty table, or from a table whose
    weights are all at most zero (more generally, whenever the total weight
    is not positive), fails with the configuration error.  A run on such a
    table ends in that error at once: no session is started and nothing is
    drawn.  A table that builds has a positive total weight. *)
Theorem invalid_weight_table_is_fatal :
  build_registry [] = inr InvalidWeightTable /\
  (forall ds,
     Forall (fun d => (weight d <= 0)%Z) ds ->
     build_registry ds = inr InvalidWeightTable) /\
  (forall ds,
     (sum_weights ds <= 0)%Z -> build_registry ds = inr InvalidWeightTable) /\
  (forall ds e n w, build_registry ds = inr e -> run ds n w = Fatal e) /\
  (forall ds reg,
     build_registry ds = inl reg ->
     descriptors reg = ds /\ (0 < total_weight reg)%Z).
Proof.
  assert (total : forall ds, (sum_weights ds <= 0)%Z ->
                  build_registry ds = inr InvalidWeightTable).
  { intros ds H. unfold build_registry.
    destruct (0 <? sum_weights ds)%Z eqn:E; [|reflexivity].
    apply Z.ltb_lt in E. lia. }
  split; [reflexivity|]. split; [|split; [exact total|split]].
  - intros ds H. apply total. induction H as [|d l Hd _ IH]; cbn in *; lia.
  - intros ds e n w H. unfold run. rewrite H. reflexivity.
  - intros ds reg H. apply build_registry_inl in H as [-> HT].
    split; [reflexivity | exact HT].
Qed.

(** ** Start-up *)

(** C7.  The two ways the index request of [on_start] can fail.  When it
    is answered and the answer is not [ok], [on_start] ends normally: the
    session has no product ids and an empty cart, the request and the
    reported failure are in the log, and the user runs its schedule from
    that state, every task in turn.  When the request is refused,
    reading [resp.ok] raises the stored transport error out of
    [on_start]: nothing is marked, and the user ends there without
    running any task. *)
Theorem on_start_failed_index :
  (forall w resp w',
     resp = frontend w (requests w) (index_request true) ->
     answered resp = true ->
     ok resp = false ->
     w' = snd (on_start w) ->
     fst (on_start w) = Ok tt /\
     self w' = mkSession [] [] /\
     requests w' = S (requests w) /\
     appended w w' [Sent (index_request true) (mkSession [] []);
                    index_failure resp] /\
     (forall ts,
        snd (run_user ts w)
        = fold_left (fun w1 t => snd (task_body t w1)) ts w') /\
     (forall ts, fst (run_user ts w) = Ok tt)) /\
  (forall w e w',
     frontend w (requests w) (index_request true) = Refused e ->
     w' = snd (on_start w) ->
     fst (on_start w) = Raise (Transport e) /\
     self w' = mkSession [] [] /\
     requests w' = S (requests w) /\
     appended w w' [Sent (index_request true) (mkSession [] [])] /\
     (forall ts, run_user ts w = (Raise (Transport e), w'))).
Proof.
  split.
  - intros w resp w' -> Hans Hok ->.
    assert (Hrun : forall ts, run_user ts w = run_tasks ts (snd (on_start w))).
    { intros ts. rewrite run_user_tasks.
      destruct (frontend w (requests w) (index_request true));
        [reflexivity | discriminate]. }
    refine (conj _ (conj _ (conj _ (conj _ (conj _ _))))).
    5: intros ts; rewrite Hrun; apply run_tasks_fold.
    5: intros ts; rewrite Hrun; apply run_tasks_ok.
    all: rewrite on_start_run;
      unfold appended, loaded, marks_of, index_mark; cbn;
      rewrite ?Hok, ?Hans;
      destruct (frontend w (requests w) (index_request true));
      try discriminate; reflexivity.
  - intros w e w' Hf ->.
    assert (Hrun : forall ts,
              run_user ts w = (Raise (Transport e), snd (on_start w))).
    { intros ts. rewrite run_user_tasks, Hf. reflexivity. }
    refine (conj _ (conj _ (conj _ (conj _ Hrun)))).
    all: rewrite on_start_run;
      unfold appended, loaded, marks_of; cbn; rewrite ?Hf; reflexivity.
Qed.

(** ** Tasks that only look *)

(** C8.  [index], [set_currency] and [view_cart] end normally and leave the
    session as it was: the same product ids and the same cart.  Each sends
    one request and marks nothing.  The currency posted by [set_currency]
    is the element of [CURRENCIES] the draw selects; over one period of raw
    draws each of the six codes is selected exactly once, so the choice is
    uniform. *)
Theorem looking_tasks_keep_session :
  (forall w,
     fst (index w) = Ok tt /\
     self (snd (index w)) = self w /\
     appended w (snd (index w)) [Sent (index_request false) (self w)]) /\
  (forall w,
     fst (view_cart w) = Ok tt /\
     self (snd (view_cart w)) = self w /\
     appended w (snd (view_cart w)) [Sent cart_request (self w)]) /\
  (forall w,
     fst (set_currency w) = Ok tt /\
     self (snd (set_currency w)) = self w /\
     In (currency_of (entropy w (draws w))) CURRENCIES /\
     appended w (snd (set_currency w))
       [Sent (currency_request (currency_of (entropy w (draws w)))) (self w)]) /\
  Forall (fun c => favourable String.eqb currency_of (length CURRENCIES) c = 1)
         CURRENCIES /\
  (forall r, currency_of (r + length CURRENCIES) = currency_of r).
Proof.
  repeat split; try reflexivity.
  - apply currency_of_In.
  - repeat constructor.
  - intros r. unfold currency_of, choice_of. cbn [CURRENCIES length].
    replace (r + 6) with (r + 1 * 6) by lia.
    rewrite Nat.Div0.mod_add. reflexivity.
Qed.

(** ** Think time *)









(** ** Quantities *)

(** What [add_to_cart] does to the cart, in terms of the draw it makes. *)
Lemma add_to_cart_quantity : forall w,
  cart_items (self (snd (add_to_cart w))) = cart_items (self w) \/
  exists pid w1,
    _choose_product w = (Ok pid, w1) /\
    draws (snd (add_to_cart w)) = S (draws w1) /\
    cart_items (self (snd (add_to_cart w)))
    = cart_items (self w) ++ [(pid, randint_of 1 3 (entropy w (draws w1)))].
Proof.
  intros w. rewrite add_to_cart_run.
  pose proof (_choose_product_cart w) as Hc.
  pose proof (_choose_product_entropy w) as He.
  destruct (_choose_product w) as [[pid|e] w1]; cbn [fst snd] in *;
    [|left; exact Hc].
  destruct (Text.is_empty pid); [left; exact Hc|].
  right. exists pid, w1. split; [reflexivity|]. split; [reflexivity|].
  cbn. rewrite Hc, He. reflexivity.
Qed.

(** C10.  [random.randint(1, 3)] consumes one raw draw and returns the
    value that draw selects, which is 1, 2 or 3, each for exactly one raw
    draw in every period of three: the quantity is uniform on 1..3.  A task
    leaves the cart alone, empties it, or, in [add_to_cart] only, appends
    one line whose quantity is the value of the draw made right after the
    product was chosen.  Hence in every state a user can reach, every line
    of the cart has a quantity between 1 and 3, a positive integer. *)
Theorem cart_quantities_in_range :
  (forall w,
     randint 1 3 w = (Ok (randint_of 1 3 (entropy w (draws w))), drawn w)) /\
  (forall r, (1 <= randint_of 1 3 r <= 3)%Z) /\
  Forall (fun q => favourable Z.eqb (randint_of 1 3) 3 q = 1) [1; 2; 3]%Z /\
  (forall r, randint_of 1 3 (r + 3) = randint_of 1 3 r) /\
  (forall t w w',
     w' = snd (task_body t w) ->
     cart_items (self w') = cart_items (self w) \/
     cart_items (self w') = [] \/
     (t = TaskAddToCart /\
      exists pid w1,
        _choose_product w = (Ok pid, w1) /\
        draws w' = S (draws w1) /\
        cart_items (self w')
        = cart_items (self w)
          ++ [(pid, randint_of 1 3 (entropy w (draws w1)))])) /\
  (forall w,
     reachable w ->
     Forall quantity_in_range (cart_items (self w)) /\
     Forall (fun line => (0 < snd line)%Z) (cart_items (self w))).
Proof.
  split; [reflexivity|].
  split; [exact randint_1_3_range|].
  split; [repeat constructor|].
  split.
  { intros r. unfold randint_of. change (Z.to_nat (3 - 1 + 1)) with 3.
    replace (r + 3) with (r + 1 * 3) by lia.
    rewrite Nat.Div0.mod_add. reflexivity. }
  split.
  { intros t w w' ->. destruct t.
    - left; reflexivity.
    - left; reflexivity.
    - left. rewrite task_self. reflexivity.
    - destruct (add_to_cart_quantity w) as [H | H]; [left; exact H|].
      right; right. split; [reflexivity | exact H].
    - left; reflexivity.
    - rewrite task_self. cbn [cart_items].
      destruct (is_nil _); [right; left; reflexivity|].
      destruct (ok _); [right; left | left]; reflexivity. }
  assert (inv : forall w, reachable w ->
                Forall quantity_in_range (cart_items (self w))).
  { induction 1 as [w0 | w t Hw IH].
    - rewrite on_start_run. cbn. constructor.
    - destruct (task_cart_effect t w) as [-> | [-> | (pid & r & ->)]].
      + exact IH.
      + constructor.
      + apply Forall_app; split; [exact IH|].
        constructor; [apply randint_1_3_range | constructor]. }
  intros w Hw; split; [exact (inv w Hw)|].
  eapply Forall_impl; [|exact (inv w Hw)].
  unfold quantity_in_range; intros line H; lia.
Qed.

(** ** The properties on sample worlds *)

Lemma checkout_cart_effect_witness :
  checkout (fresh shop (fun n => n)) = (Ok tt, fresh shop (fun n => n)) /\
  cart_items (self (snd (checkout (basket_world shop)))) = [] /\
  cart_items (self (snd (checkout (basket_world outage)))) = [("ABC-1", 2%Z)] /\
  cart_items (self (snd (checkout (basket_world unreachable))))
  = [("ABC-1", 2%Z)] /\
  fst (checkout (basket_world unreachable)) = Raise (Transport ConnectionError).
Proof.
  assert (Hne : forall f, cart_items (self (basket_world f)) <> [])
    by (intros f; discriminate).
  destruct (proj2 (checkout_cart_effect (basket_world shop)) (Hne shop)
              _ _ eq_refl eq_refl) as (_ & _ & _ & _ & Hok & _).
  destruct (proj2 (checkout_cart_effect (basket_world outage)) (Hne outage)
              _ _ eq_refl eq_refl) as (_ & _ & _ & _ & _ & Hdown & _).
  destruct (proj2 (checkout_cart_effect (basket_world unreachable))
              (Hne unreachable) _ _ eq_refl eq_refl)
    as (_ & _ & _ & _ & _ & Hkeep & _ & Hraise).
  split; [|split; [|split; [|split]]].
  - apply (proj1 (checkout_cart_effect (fresh shop (fun n => n)))). reflexivity.
  - exact (proj2 (proj2 (Hok eq_refl))).
  - exact (Hdown eq_refl).
  - exact (Hkeep eq_refl).
  - exact (proj1 (Hraise ConnectionError eq_refl)).
Defined.

Lemma add_to_cart_appends_line_witness :
  cart_items (self (snd (add_to_cart x_world))) = [("X", 2%Z)] /\
  cart_items (self (snd ((add_to_cart ;; add_to_cart) x_world)))
  = [("X", 2%Z); ("X", 1%Z)].
Proof.
  split.
  - refine (proj1 (proj2
      (proj1 add_to_cart_appends_line x_world "X" 2%Z _ _ _ _ eq_refl eq_refl eq_refl))).
    repeat split.
  - apply (proj2 add_to_cart_appends_line x_world "X" 2%Z 1%Z); repeat split.
Defined.


Lemma browse_product_empty_catalog_witness :
  appended offline_world (snd (browse_product offline_world))
    [Sent (index_request true) (mkSession [] []);
     Failure "index" "Index failed with 503"] /\
  product_ids (self (snd (browse_product (fresh shop (fun n => n)))))
  = ["ABC-1"; "OLJCESPC7Z"].
Proof.
  destruct browse_product_empty_catalog as (Hempty & _ & _).
  destruct (Hempty offline_world _ _ eq_refl eq_refl eq_refl)
    as (_ & Hids & Hanswered).
  destruct (Hanswered eq_refl) as (_ & Hstop & _).
  destruct (Hempty (fresh shop (fun n => n)) _ _ eq_refl eq_refl eq_refl)
    as (_ & Hfound & _).
  split.
  - exact (proj1 (Hstop Hids)).
  - exact Hfound.
Defined.

Lemma weights_nonnegative_registry_table : weights_nonnegative registry_table.
Proof. repeat constructor; discriminate. Qed.

Lemma registry_table_names_distinct : NoDup (map action_name registry_table).
Proof.
  repeat constructor; cbn; intuition discriminate.
Qed.

Lemma weighted_selection_frequencies_witness :
  Z.of_nat (frequency (mkRegistry registry_table 19) "browseProduct") = 10%Z /\
  Z.of_nat (frequency (mkRegistry registry_table 19) "checkout") = 1%Z /\
  Z.of_nat (frequency (mkRegistry registry_table 19) "viewCart") = 3%Z.
Proof.
  destruct (proj1 weighted_selection_frequencies registry_table
              (mkRegistry registry_table 19) eq_refl
              weights_nonnegative_registry_table)
    as (_ & _ & _ & Hname & Hdesc).
  split; [apply (Hname "browseProduct") | split; [apply (Hname "checkout")|]].
  apply (Hdesc registry_table_names_distinct
               (mkAction "viewCart" 3 view_cart)).
  do 4 right; left; reflexivity.
Defined.

Lemma invalid_weight_table_is_fatal_witness :
  build_registry idle_table = inr InvalidWeightTable /\
  run idle_table 5 offline_world = Fatal InvalidWeightTable.
Proof.
  destruct invalid_weight_table_is_fatal as (_ & Hall & _ & Hrun & _).
  assert (H : build_registry idle_table = inr InvalidWeightTable).
  { apply Hall. repeat constructor; discriminate. }
  split; [exact H | apply Hrun, H].
Defined.

Lemma on_start_failed_index_witness :
  appended offline_world (snd (on_start offline_world))
    [Sent (index_request true) (mkSession [] []);
     Failure "index" "Index failed with 503"] /\
  fst (run_user [TaskBrowseProduct; TaskAddToCart; TaskCheckout] offline_world)
  = Ok tt /\
  run_user [TaskBrowseProduct; TaskAddToCart; TaskCheckout] unplugged_world
  = (Raise (Transport ConnectionError), snd (on_start unplugged_world)).
Proof.
  destruct (proj1 on_start_failed_index offline_world _ _
              eq_refl eq_refl eq_refl eq_refl)
    as (_ & _ & _ & Hlog & _ & Hrun).
  destruct (proj2 on_start_failed_index unplugged_world ConnectionError _
              eq_refl eq_refl)
    as (_ & _ & _ & _ & Hstop).
  split; [exact Hlog | split; [apply Hrun | apply Hstop]].
Defined.


Lemma cart_quantities_in_range_witness :
  Forall quantity_in_range
    (cart_items (self (snd (task_body TaskAddToCart
                              (snd (on_start (fresh shop (fun n => n)))))))) /\
  (cart_items (self (snd (task_body TaskViewCart (basket_world shop))))
   = cart_items (self (basket_world shop)) \/
   cart_items (self (snd (task_body TaskViewCart (basket_world shop)))) = [] \/
   (TaskViewCart = TaskAddToCart /\
    exists pid w1,
      _choose_product (basket_world shop) = (Ok pid, w1) /\
      draws (snd (task_body TaskViewCart (basket_world shop))) = S (draws w1) /\
      cart_items (self (snd (task_body TaskViewCart (basket_world shop))))
      = cart_items (self (basket_world shop))
        ++ [(pid, randint_of 1 3 (entropy (basket_world shop) (draws w1)))])).
Proof.
  destruct cart_quantities_in_range as (_ & _ & _ & _ & Hstep & Hinv).
  split.
  - apply Hinv. apply reach_task, reach_start.
  - exact (Hstep TaskViewCart (basket_world shop) _ eq_refl).
Defined.

(** * Further properties of the user class *)

(** ** What a method can raise *)

Lemma block_outcome_raise : forall resp e,
  block_outcome resp = Raise e -> exists err, resp = Refused err /\ e = Transport err.
Proof.
  intros [o c t|err] e; cbn; [discriminate|].
  intros [= <-]. exists err. split; reflexivity.
Qed.

Lemma block_outcome_answered : forall resp,
  answered resp = true -> block_outcome resp = Ok tt.
Proof. intros [o c t|err]; [reflexivity | discriminate]. Qed.

Lemma refresh_outcome_raise : forall w e,
  refresh_outcome w = Raise e -> refused_at w e.
Proof.
  intros w e. unfold refresh_outcome.
  destruct (is_nil _); [|discriminate]. intros H.
  destruct (block_outcome_raise _ _ H) as (err & Hf & ->).
  exists (index_request true), err. repeat split. exact Hf.
Qed.

Lemma task_outcome_raise : forall t w e,
  task_outcome t w = Raise e -> refused_at w e.
Proof.
  intros [] w e; cbn [task_outcome]; try discriminate;
    try apply refresh_outcome_raise.
  destruct (is_nil _); [discriminate|]. intros H.
  destruct (block_outcome_raise _ _ H) as (err & Hf & ->).
  exists checkout_request, err. repeat split. exact Hf.
Qed.

Lemma task_outcome_answered : forall t w,
  always_answers (frontend w) -> task_outcome t w = Ok tt.
Proof.
  intros [] w H; cbn [task_outcome]; try reflexivity;
    unfold refresh_outcome; destruct (is_nil _);
    try reflexivity; apply block_outcome_answered, H.
Qed.

(** X1.  [random.choice] is only ever called on a non-empty list and
    [random.randint] on a non-empty range, so no method raises an
    [IndexError] or a [ValueError].  [index], [set_currency] and
    [view_cart] never raise.  What [on_start], the two helpers,
    [browse_product], [add_to_cart] and [checkout] can raise is the
    transport error of the request they sent with [catch_response], when
    the frontend refused it: reading [ok] raises it.  A run of a user
    raises only when [on_start] does.  On a frontend that answers every
    request, whatever the status, nothing raises. *)
Theorem methods_raise_only_refusals : forall w,
  fst (index w) = Ok tt /\
  fst (set_currency w) = Ok tt /\
  fst (view_cart w) = Ok tt /\
  (forall e, fst (on_start w) = Raise e -> refused_at w e) /\
  (forall e, fst (_load_products w) = Raise e -> refused_at w e) /\
  (forall e, fst (_choose_product w) = Raise e -> refused_at w e) /\
  (forall t e, fst (task_body t w) = Raise e -> refused_at w e) /\
  (forall ts e, fst (run_user ts w) = Raise e -> fst (on_start w) = Raise e) /\
  (always_answers (frontend w) ->
     fst (on_start w) = Ok tt /\
     fst (_load_products w) = Ok tt /\
     (exists pid, fst (_choose_product w) = Ok pid) /\
     (forall t, fst (task_body t w) = Ok tt) /\
     (forall ts, fst (run_user ts w) = Ok tt)).
Proof.
  intros w.
  assert (Hblock : forall e,
            block_outcome (frontend w (requests w) (index_request true))
            = Raise e -> refused_at w e).
  { intros e H. destruct (block_outcome_raise _ _ H) as (err & Hf & ->).
    exists (index_request true), err. repeat split. exact Hf. }
  split; [reflexivity|]. split; [reflexivity|]. split; [reflexivity|].
  split; [intros e; rewrite on_start_run; apply Hblock|].
  split; [intros e; rewrite _load_products_run; apply Hblock|].
  split.
  { intros e. rewrite _choose_product_chosen.
    destruct (refresh_outcome w) as [[]|e'] eqn:Er; [discriminate|].
    intros [= <-]. apply refresh_outcome_raise, Er. }
  split; [intros t e; rewrite task_body_outcome; apply task_outcome_raise|].
  split.
  { intros ts e. rewrite run_user_tasks, on_start_run. cbn [fst].
    destruct (block_outcome _) as [[]|e']; [|exact (fun H => H)].
    rewrite run_tasks_ok. discriminate. }
  intros Hall.
  assert (Hb : block_outcome (frontend w (requests w) (index_request true))
               = Ok tt) by apply block_outcome_answered, Hall.
  split; [rewrite on_start_run; exact Hb|].
  split; [rewrite _load_products_run; exact Hb|].
  split.
  { exists (chosen w). rewrite _choose_product_chosen.
    pose proof (task_outcome_answered TaskBrowseProduct w Hall) as Hr.
    cbn [task_outcome] in Hr. rewrite Hr. reflexivity. }
  split; [intros t; rewrite task_body_outcome; apply task_outcome_answered, Hall|].
  intros ts. rewrite run_user_tasks, Hb. apply run_tasks_ok.
Qed.

(** ** The catalog of a session *)

Lemma refreshed_ids_shape : forall w,
  reachable w ->
  Forall (group_shape PRODUCT_HREF_RE) (product_ids (self (refreshed w))).
Proof.
  intros w Hw. rewrite refreshed_product_ids.
  destruct (is_nil _); [|apply reachable_invariant, Hw].
  destruct (ok _); [apply discover_group_shape | constructor].
Qed.

(** X2.  In every state a user can reach, each known product id is a
    non-empty run of letters, digits and hyphens.  So the empty string
    [_choose_product] returns for "nothing to choose" is never a product:
    when [_choose_product] returns, it returns the empty string exactly
    when no product is known after the refresh.  When it raises instead,
    no product is known either. *)
Theorem known_ids_well_formed : forall w,
  reachable w ->
  Forall (group_shape PRODUCT_HREF_RE) (product_ids (self w)) /\
  ~ In "" (product_ids (self w)) /\
  (forall pid,
     fst (_choose_product w) = Ok pid ->
     (pid = "" <-> product_ids (self (snd (_choose_product w))) = [])) /\
  (forall e,
     fst (_choose_product w) = Raise e ->
     product_ids (self (snd (_choose_product w))) = []).
Proof.
  intros w Hw. destruct (reachable_invariant w Hw) as [Hs _].
  split; [exact Hs|]. split; [|split].
  - intros H. rewrite Forall_forall in Hs. destruct (Hs _ H) as [E _].
    discriminate.
  - intros pid. rewrite _choose_product_chosen.
    destruct (refresh_outcome w) as [[]|e]; [|discriminate].
    cbn [fst snd]. intros [= <-].
    assert (Hp : product_ids (self (if is_nil (product_ids (self (refreshed w)))
                                    then refreshed w else drawn (refreshed w)))
                 = product_ids (self (refreshed w)))
      by (destruct (is_nil _); reflexivity).
    rewrite Hp. split.
    + intros E. destruct (product_ids (self (refreshed w))) eqn:Ei;
        [reflexivity|].
      assert (Hin : In (chosen w) (product_ids (self (refreshed w))))
        by (apply chosen_In; rewrite Ei; discriminate).
      pose proof (refreshed_ids_shape w Hw) as Hr.
      rewrite Forall_forall in Hr. destruct (Hr _ Hin) as [Hne _].
      rewrite E in Hne. discriminate.
    + intros E. apply (chosen_empty_list w E).
  - intros e. rewrite _choose_product_chosen.
    destruct (refresh_outcome w) as [[]|e'] eqn:Er; [discriminate|].
    intros _. cbn [snd]. exact (refreshed_raise_no_ids w e' Er).
Qed.

(** X3.  In every state a user can reach, each line of the cart is for a
    product of the known catalog; in particular a cart with a line in it
    belongs to a session that knows at least one product. *)
Theorem cart_holds_known_products : forall w,
  reachable w ->
  (forall line, In line (cart_items (self w)) ->
     In (fst line) (product_ids (self w)) /\
     group_shape PRODUCT_HREF_RE (fst line)) /\
  (cart_items (self w) <> [] -> product_ids (self w) <> []).
Proof.
  intros w Hw. destruct (reachable_invariant w Hw) as [Hs Hc]. split.
  - intros line Hl. split; [apply Hc, Hl|].
    rewrite Forall_forall in Hs. apply Hs, Hc, Hl.
  - intros Hne E. destruct (cart_items (self w)) as [|line c];
      [apply Hne; reflexivity|].
    pose proof (Hc line (or_introl eq_refl)) as Hi. rewrite E in Hi.
    destruct Hi.
Qed.

Lemma task_events_no_refresh : forall t w s,
  product_ids (self w) <> [] ->
  ~ In (Sent (index_request true) s) (task_events t w).
Proof.
  intros t w s Hne.
  assert (Hr : refresh_events w = []).
  { unfold refresh_events. destruct (product_ids (self w));
      [contradiction Hne|]; reflexivity. }
  destruct t; cbn [task_events]; rewrite ?Hr; cbn [app].
  - intros [[=] | []].
  - intros [[=] | []].
  - destruct (Text.is_empty _); [intros [] | intros [[=] | []]].
  - destruct (Text.is_empty _); [intros [] | intros [[=] | []]].
  - intros [[=] | []].
  - destruct (is_nil _); [intros []|].
    intros [[=] | H]. unfold marks_of, checkout_mark, checkout_failure in H.
    destruct (answered _); [|destruct H].
    destruct H as [H | []]. destruct (ok _); discriminate.
Qed.

(** X4.  Once a session knows a product, its catalog is fixed: whatever
    tasks run afterwards, [product_ids] stays the same list and no further
    discovery request is sent. *)
Theorem catalog_is_never_refreshed : forall w w',
  product_ids (self w) <> [] ->
  runs_to w w' ->
  product_ids (self w') = product_ids (self w) /\
  (forall s, In (Sent (index_request true) s) (log w') ->
             In (Sent (index_request true) s) (log w)).
Proof.
  intros w w' Hne H. induction H as [|w' t H [IHp IHl]]; [auto|].
  assert (Hne' : product_ids (self w') <> []) by (rewrite IHp; exact Hne).
  assert (Hr : product_ids (self (refreshed w')) = product_ids (self w')).
  { rewrite refreshed_product_ids. destruct (product_ids (self w'));
      [contradiction Hne'|]; reflexivity. }
  split.
  - rewrite task_self. destruct t; cbn; rewrite ?Hr; exact IHp.
  - intros s Hs. rewrite task_log in Hs. apply in_app_or in Hs as [Hs | Hs].
    + apply IHl, Hs.
    + destruct (task_events_no_refresh t w' s Hne' Hs).
Qed.

(** ** The cart and the log *)

Lemma run_tasks_replay : forall ts w,
  exists es,
    log (snd (run_tasks ts w)) = log w ++ es /\
    cart_items (self (snd (run_tasks ts w))) = replay es (cart_items (self w)).
Proof.
  induction ts as [|t ts IH]; intros w.
  - exists []. split; [symmetry; apply app_nil_r | reflexivity].
  - rewrite run_tasks_cons.
    destruct (IH (snd (task_body t w))) as (es & Hl & Hc).
    exists (task_events t w ++ es). split.
    + rewrite Hl, task_log, app_assoc. reflexivity.
    + rewrite Hc, task_cart_replay, replay_app. reflexivity.
Qed.

(** X5.  The local cart is what the log says it should be.  Over the whole
    life of a user, started in any world and running any schedule, the cart
    equals the lines of the POST /cart requests sent since the last
    checkout that was marked a success (or since the start): every add
    request has its line, whatever the frontend answered, and nothing else
    puts a line in or takes one out. *)
Theorem cart_mirrors_log : forall ts w0,
  exists es,
    log (snd (run_user ts w0)) = log w0 ++ es /\
    cart_items (self (snd (run_user ts w0))) = replay es [].
Proof.
  intros ts w0. rewrite run_user_tasks.
  destruct (run_tasks_replay ts (snd (on_start w0))) as (es & Hl & Hc).
  rewrite on_start_run in *. cbn [snd] in *.
  set (w1 := with_self (mkSession [] []) w0) in *.
  set (resp := frontend w0 (requests w0) (index_request true)).
  assert (Hstart : log (loaded w1)
                   = log w0 ++ Sent (index_request true) (self w1)
                               :: marks_of resp (index_mark resp))
    by reflexivity.
  assert (Hmarks : forall cart,
            replay (Sent (index_request true) (self w1)
                    :: marks_of resp (index_mark resp)) cart = cart)
    by (intros cart; exact (replay_index_marks resp cart)).
  destruct (block_outcome resp) as [[]|e]; cbn [snd].
  - exists ((Sent (index_request true) (self w1)
             :: marks_of resp (index_mark resp)) ++ es).
    split.
    + rewrite Hl, Hstart, <- app_assoc. reflexivity.
    + rewrite Hc, replay_app, Hmarks. reflexivity.
  - exists (Sent (index_request true) (self w1)
            :: marks_of resp (index_mark resp)).
    split; [exact Hstart | rewrite Hmarks; reflexivity].
Qed.

(** ** Requests per cycle *)

(** X6.  One cycle sends at most two requests.  [index], [set_currency]
    and [view_cart] send exactly one; [checkout] sends none on an empty
    cart and one otherwise; [browse_product] and [add_to_cart] send at most
    one once a product is known (the second one is the discovery request).
    The log only grows, by the events of the cycle. *)
Theorem requests_per_cycle : forall t w,
  exists es,
    log (snd (task_body t w)) = log w ++ es /\
    requests (snd (task_body t w)) = requests w + count_sent es /\
    count_sent es <= 2 /\
    match t with
    | TaskIndex | TaskSetCurrency | TaskViewCart => count_sent es = 1
    | TaskCheckout =>
        count_sent es = if is_nil (cart_items (self w)) then 0 else 1
    | TaskBrowseProduct | TaskAddToCart =>
        (product_ids (self w) <> [] -> count_sent es <= 1) /\
        (product_ids (self (snd (task_body t w))) = [] -> count_sent es = 1)
    end.
Proof.
  intros t w. exists (task_events t w).
  split; [apply task_log|]. split; [apply task_requests|].
  assert (Hb : forall tail : list Event,
            count_sent tail <= 1 ->
            (Text.is_empty (chosen w) = true -> tail = []) ->
            count_sent (refresh_events w ++ tail) <= 2 /\
            (product_ids (self w) <> [] ->
             count_sent (refresh_events w ++ tail) <= 1) /\
            (product_ids (self (refreshed w)) = [] ->
             count_sent (refresh_events w ++ tail) = 1)).
  { intros tail Ht He. rewrite count_sent_app, count_sent_refresh_events.
    split; [destruct (is_nil _); lia|]. split.
    - intros Hne. destruct (product_ids (self w)); [contradiction Hne|];
        [reflexivity | cbn; lia].
    - intros E. rewrite (He (f_equal Text.is_empty (chosen_empty_list w E))).
      rewrite refreshed_product_ids in E.
      destruct (product_ids (self w)); [reflexivity | discriminate]. }
  destruct t; cbn [task_events]; try (split; [cbn; lia | reflexivity]).
  - rewrite task_self. cbn [product_ids].
    destruct (Hb (if Text.is_empty (chosen w) then []
                  else [Sent (product_request (chosen w)) (self (refreshed w))]))
      as (H2 & H1 & H0); auto.
    + destruct (Text.is_empty _); cbn; lia.
    + intros ->; reflexivity.
  - rewrite task_self. cbn [product_ids].
    destruct (Hb (if Text.is_empty (chosen w) then []
                  else [Sent (add_request (chosen w) (drawn_quantity w))
                             (mkSession (product_ids (self (refreshed w)))
                                (cart_items (self w)
                                 ++ [(chosen w, drawn_quantity w)]))]))
      as (H2 & H1 & H0); auto.
    + destruct (Text.is_empty _); cbn; lia.
    + intros ->; reflexivity.
  - destruct (is_nil _); [cbn; lia|].
    rewrite count_sent_cons_sent, count_sent_marks_of
      by apply is_sent_checkout_mark.
    lia.
Qed.

(** ** Acting on a known catalog, and without one *)

Lemma refreshed_known : forall w, product_ids (self w) <> [] -> refreshed w = w.
Proof.
  intros w H. unfold refreshed.
  destruct (product_ids (self w)); [contradiction H|]; reflexivity.
Qed.

(** X7.  In a reachable state with a known catalog, [browse_product] and
    [add_to_cart] never skip and never re-discover: [browse_product] sends
    the one request GET /product/id for an id of the catalog and leaves the
    session as it was; [add_to_cart] appends one line for an id of the
    catalog with a quantity from 1 to 3 and sends the one POST /cart for
    it. *)
Theorem known_catalog_always_acts : forall w,
  reachable w ->
  product_ids (self w) <> [] ->
  (exists pid,
     In pid (product_ids (self w)) /\
     self (snd (browse_product w)) = self w /\
     appended w (snd (browse_product w)) [Sent (product_request pid) (self w)]) /\
  (exists pid qty,
     In pid (product_ids (self w)) /\
     (1 <= qty <= 3)%Z /\
     cart_items (self (snd (add_to_cart w))) = cart_items (self w) ++ [(pid, qty)] /\
     product_ids (self (snd (add_to_cart w))) = product_ids (self w) /\
     appended w (snd (add_to_cart w))
       [Sent (add_request pid qty)
             (mkSession (product_ids (self w))
                        (cart_items (self w) ++ [(pid, qty)]))]).
Proof.
  intros w Hw Hne.
  pose proof (refreshed_known w Hne) as Hr.
  assert (Hin : In (chosen w) (product_ids (self w))).
  { rewrite <- Hr at 2. apply chosen_In. rewrite Hr. exact Hne. }
  assert (Hc : Text.is_empty (chosen w) = false).
  { destruct (reachable_invariant w Hw) as [Hs _].
    rewrite Forall_forall in Hs. apply (Hs _ Hin). }
  assert (He : refresh_events w = []).
  { unfold refresh_events. destruct (product_ids (self w));
      [contradiction Hne|]; reflexivity. }
  split.
  - exists (chosen w). split; [exact Hin|]. unfold appended.
    change (browse_product w) with (task_body TaskBrowseProduct w).
    rewrite task_self, task_log. cbn [task_events].
    rewrite He, Hc, Hr. split; [destruct (self w)|]; reflexivity.
  - exists (chosen w), (drawn_quantity w). split; [exact Hin|].
    split; [apply randint_1_3_range|]. unfold appended.
    change (add_to_cart w) with (task_body TaskAddToCart w).
    rewrite task_self, task_log. cbn [task_events cart_items product_ids].
    rewrite He, Hc, Hr. repeat split; reflexivity.
Qed.

(** X8.  With no product id known and none found by the refresh,
    [add_to_cart] adds nothing, like [browse_product] requests nothing:
    the discovery request is the one request sent, the cart is untouched,
    no quantity is drawn and nothing is posted to /cart.  When the
    frontend answered the discovery request, its mark is logged behind it
    and the call returns; when the frontend refused it, reading [ok]
    raises the transport error, nothing is marked and the call ends with
    that error. *)
Theorem add_to_cart_without_catalog : forall w resp w',
  product_ids (self w) = [] ->
  resp = frontend w (requests w) (index_request true) ->
  w' = snd (add_to_cart w) ->
  product_ids (self w') = [] ->
  cart_items (self w') = cart_items (self w) /\
  requests w' = S (requests w) /\
  draws w' = draws w /\
  (answered resp = true ->
     fst (add_to_cart w) = Ok tt /\
     appended w w' [Sent (index_request true) (self w); index_mark resp]) /\
  (forall err,
     resp = Refused err ->
     fst (add_to_cart w) = Raise (Transport err) /\
     appended w w' [Sent (index_request true) (self w)]).
Proof.
  intros w resp w' Hnil -> -> Hafter.
  assert (Hr : refreshed w = loaded w)
    by (unfold refreshed; rewrite Hnil; reflexivity).
  assert (Hi : product_ids (self (refreshed w)) = []).
  { change (add_to_cart w) with (task_body TaskAddToCart w) in Hafter.
    rewrite task_self in Hafter. exact Hafter. }
  assert (Ho : refresh_outcome w
               = block_outcome (frontend w (requests w) (index_request true)))
    by (unfold refresh_outcome; rewrite Hnil; reflexivity).
  assert (E : add_to_cart w
              = (block_outcome (frontend w (requests w) (index_request true)),
                 loaded w)).
  { rewrite add_to_cart_run, _choose_product_chosen, Ho.
    rewrite (chosen_empty_list w Hi), Hi, Hr.
    destruct (block_outcome _) as [[]|e]; reflexivity. }
  rewrite E. cbn [fst snd]. unfold appended.
  split; [reflexivity|]. split; [reflexivity|]. split; [reflexivity|].
  split.
  - intros Ha. split; [apply block_outcome_answered, Ha|].
    unfold loaded, marks_of. cbn [log]. rewrite Ha. reflexivity.
  - intros err Hf. rewrite Hf. split; [reflexivity|].
    unfold loaded. cbn [log]. rewrite Hf. reflexivity.
Qed.

(** ** Checking out twice *)

(** X9.  After a checkout that the frontend accepted, a second checkout is
    a no-op: nothing is sent and the world stays as it is.  After one that
    was not accepted, answered with a failure or refused, the session is
    unchanged and a second checkout posts the same request again, with the
    same cart behind it; the second one empties the cart if it is accepted
    and keeps it otherwise.  When the second request is answered its mark
    is logged and the call returns; when it is refused nothing is marked
    and the call ends with the transport error. *)
Theorem checkout_twice : forall w resp w1,
  cart_items (self w) <> [] ->
  resp = frontend w (requests w) checkout_request ->
  w1 = snd (checkout w) ->
  (ok resp = true -> checkout w1 = (Ok tt, w1)) /\
  (ok resp = false ->
   self w1 = self w /\
   forall resp2 w2,
     resp2 = frontend w (S (requests w)) checkout_request ->
     w2 = snd (checkout w1) ->
     requests w2 = S (S (requests w)) /\
     cart_items (self w2) = (if ok resp2 then [] else cart_items (self w)) /\
     (answered resp2 = true ->
        fst (checkout w1) = Ok tt /\
        appended w1 w2 [Sent checkout_request (self w); checkout_mark resp2]) /\
     (forall err,
        resp2 = Refused err ->
        fst (checkout w1) = Raise (Transport err) /\
        appended w1 w2 [Sent checkout_request (self w)])).
Proof.
  intros w resp w1 Hne -> ->.
  assert (Hn : is_nil (cart_items (self w)) = false)
    by (destruct (cart_items (self w)); [contradiction Hne|]; reflexivity).
  assert (E1 : snd (checkout w) = checked_out w)
    by (rewrite checkout_run, Hn; reflexivity).
  rewrite E1. split; intros Hok.
  - rewrite checkout_run. unfold checked_out at 1. cbn [self cart_items].
    rewrite Hok. reflexivity.
  - assert (Es : self (checked_out w) = self w).
    { unfold checked_out. cbn [self]. rewrite Hok.
      destruct (self w); reflexivity. }
    split; [exact Es|]. intros resp2 w2 -> ->.
    rewrite checkout_run, Es, Hn. cbn [fst snd]. unfold appended.
    assert (Ef : frontend (checked_out w) (requests (checked_out w))
                   checkout_request
                 = frontend w (S (requests w)) checkout_request)
      by reflexivity.
    rewrite Ef.
    set (resp2 := frontend w (S (requests w)) checkout_request).
    assert (El : log (checked_out (checked_out w))
                 = log (checked_out w)
                   ++ Sent checkout_request (self w)
                      :: marks_of resp2 (checkout_mark resp2)).
    { unfold checked_out at 1. cbn [log]. rewrite Es, Ef. reflexivity. }
    assert (Ec : cart_items (self (checked_out (checked_out w)))
                 = if ok resp2 then [] else cart_items (self w)).
    { unfold checked_out at 1. cbn [self cart_items]. rewrite Es, Ef.
      reflexivity. }
    split; [reflexivity|]. split; [exact Ec|]. split.
    + intros Ha. split; [apply block_outcome_answered, Ha|].
      rewrite El. unfold marks_of. rewrite Ha. reflexivity.
    + intros err Hf. rewrite El. fold resp2 in Hf. rewrite Hf.
      split; reflexivity.
Qed.

(** ** Choosing from a list *)

Lemma count_nth_occurrences : forall (a : string) (l : list string) d k,
  length (filter (fun r => String.eqb (nth (r - k) l d) a) (seq k (length l)))
  = count_occ string_dec l a.
Proof.
  intros a l d. induction l as [|y l IH]; intros k; [reflexivity|].
  cbn [length seq filter count_occ]. rewrite Nat.sub_diag. cbn [nth].
  rewrite (filter_ext_in _ (fun r => String.eqb (nth (r - S k) l d) a)).
  - destruct (String.eqb_spec y a) as [E|E];
      destruct (string_dec y a) as [E'|E']; try contradiction;
      cbn [length]; rewrite IH; reflexivity.
  - intros r Hr. apply in_seq in Hr.
    replace (r - k) with (S (r - S k)) by lia. reflexivity.
Qed.

(** X10.  [random.choice] picks a position uniformly, so a value is picked
    as often as it occurs in the list: among the [len(seq)] equally likely
    draws, the number that select [a] is the number of occurrences of [a].
    A product id the index page links twice is chosen twice as often as one
    it links once. *)
Theorem choice_frequency_is_multiplicity : forall (x : string) xs a,
  favourable String.eqb (choice_of x xs) (length (x :: xs)) a
  = count_occ string_dec (x :: xs) a /\
  (forall r, choice_of x xs (r + length (x :: xs)) = choice_of x xs r) /\
  (forall r, In (choice_of x xs r) (x :: xs)).
Proof.
  intros x xs a. split; [|split].
  - unfold favourable.
    rewrite (filter_ext_in _ (fun r => String.eqb (nth (r - 0) (x :: xs) x) a)).
    + apply count_nth_occurrences.
    + intros r Hr. apply in_seq in Hr. unfold choice_of.
      rewrite Nat.mod_small, Nat.sub_0_r by lia. reflexivity.
  - intros r. unfold choice_of.
    replace (r + length (x :: xs)) with (r + 1 * length (x :: xs)) by lia.
    rewrite Nat.Div0.mod_add. reflexivity.
  - intros r. apply choice_of_In.
Qed.

(** ** How many ids a page can hold *)

Lemma scan_length_bound : forall p s k,
  length (Re.scan p k s) * S (String.length (Re.literal p))
  <= String.length s - k.
Proof.
  intros p. induction s as [|c s IH]; intros k; [cbn; lia|].
  cbn [Re.scan]. destruct k as [|k].
  - destruct (Re.match_at p (String c s)) as [g|] eqn:E.
    + destruct (match_at_Some p _ _ E) as [[Hne _] [rest Hs]].
      apply (f_equal String.length) in Hs.
      rewrite !length_append in Hs. cbn [String.length] in Hs.
      assert (Hg : 1 <= String.length g) by (destruct g; [discriminate | cbn; lia]).
      specialize (IH (String.length (Re.literal p) + String.length g - 1)).
      cbn [length String.length]. lia.
    + specialize (IH 0). cbn [String.length]. lia.
  - specialize (IH k). cbn [String.length]. lia.
Qed.

(** X11.  Matches do not overlap and each takes the literal and at least
    one more character, so a text of n characters yields at most
    n / (len(literal) + 1) ids: a response body holds at most one product
    id per ten characters. *)
Theorem findall_count_bound :
  (forall p s,
     length (Re.findall p s) * S (String.length (Re.literal p))
     <= String.length s) /\
  (forall resp,
     10 * length (discover resp) <= String.length (or_empty (text resp))).
Proof.
  split.
  - intros p s. pose proof (scan_length_bound p s 0). unfold Re.findall. lia.
  - intros resp. pose proof (scan_length_bound PRODUCT_HREF_RE
                               (or_empty (text resp)) 0) as H.
    unfold discover, Re.findall. cbn [PRODUCT_HREF_RE Re.literal String.length] in H.
    lia.
Qed.

(** ** Order and repeats *)

(** X12.  Discovery returns a list, not a set: on a page whose only
    occurrences of /product/ are two links, it returns the two ids in the
    order of the page, and when both links are for the same product the id
    is listed twice. *)
Theorem discovery_keeps_order_and_repeats : forall pre mid post id1 id2,
  ~ Text.occurs_in "/product/" pre ->
  ~ Text.occurs_in "/product/" mid ->
  ~ Text.occurs_in "/product/" post ->
  group_shape PRODUCT_HREF_RE id1 ->
  group_shape PRODUCT_HREF_RE id2 ->
  Re.findall PRODUCT_HREF_RE
    (pre ++ product_link id1 ++ mid ++ product_link id2 ++ post)
  = [id1; id2] /\
  (id1 = id2 ->
   count_occ string_dec
     (Re.findall PRODUCT_HREF_RE
        (pre ++ product_link id1 ++ mid ++ product_link id2 ++ post)) id1 = 2).
Proof.
  intros pre mid post id1 id2 Hpre Hmid Hpost H1 H2.
  rewrite (findall_two_links pre mid post id1 id2 Hpre Hmid Hpost H1 H2).
  split; [reflexivity|]. intros <-. cbn.
  destruct (string_dec id1 id1); [reflexivity | contradiction].
Qed.

(** ** Failure reasons *)

Lemma int_of_string_str_of_int : forall n,
  NilZero.int_of_string (Text.str_of_int n) = Some (Z.to_int n).
Proof.
  intros n. unfold Text.str_of_int. apply NilZero.isi.
  - destruct n; cbn; try discriminate.
    intros [= H]. exact (DecimalPos.Unsigned.to_uint_nonnil _ H).
  - destruct n; cbn; try discriminate.
    intros [= H]. exact (DecimalPos.Unsigned.to_uint_nonnil _ H).
Qed.

Lemma status_of_reason_formatted : forall prefix n,
  status_of_reason prefix (prefix ++ Text.str_of_int n) = Some n.
Proof.
  intros prefix n. unfold status_of_reason.
  rewrite (proj2 (strip_prefix_Some prefix _ (Text.str_of_int n)) eq_refl).
  rewrite int_of_string_str_of_int. cbn. rewrite DecimalZ.of_to. reflexivity.
Qed.

(** X13.  The reason of a reported failure names the status code exactly:
    reading the number behind "Index failed with " or "Checkout failed
    with " gives back the status code of the response, so two responses
    with different status codes are reported with different reasons. *)
Theorem failure_reason_names_status :
  (forall resp r,
     index_failure resp = Failure "index" r ->
     status_of_reason "Index failed with " r = Some (status_code resp)) /\
  (forall resp r,
     checkout_failure resp = Failure "cart:checkout" r ->
     status_of_reason "Checkout failed with " r = Some (status_code resp)) /\
  (forall r1 r2,
     index_failure r1 = index_failure r2 -> status_code r1 = status_code r2) /\
  (forall r1 r2,
     checkout_failure r1 = checkout_failure r2 ->
     status_code r1 = status_code r2).
Proof.
  assert (Hi : forall resp,
            status_of_reason "Index failed with "
              ("Index failed with " ++ Text.str_of_int (status_code resp))
            = Some (status_code resp))
    by (intros; apply status_of_reason_formatted).
  assert (Hc : forall resp,
            status_of_reason "Checkout failed with "
              ("Checkout failed with " ++ Text.str_of_int (status_code resp))
            = Some (status_code resp))
    by (intros; apply status_of_reason_formatted).
  split; [|split; [|split]].
  - intros resp r [= <-]. apply Hi.
  - intros resp r [= <-]. apply Hc.
  - intros r1 r2 [= H]. pose proof (Hi r1) as H1. rewrite H, Hi in H1.
    congruence.
  - intros r1 r2 [= H]. pose proof (Hc r1) as H1. rewrite H, Hc in H1.
    congruence.
Qed.

(** ** Marks *)

Lemma mark_for_not_sent : forall rq m, mark_for rq m -> is_sent m = false.
Proof. intros rq m [-> | [reason ->]]; reflexivity. Qed.

Lemma marked_app : forall f n es1 es2,
  marked f n es1 -> marked f (n + count_sent es1) es2 ->
  marked f n (es1 ++ es2).
Proof.
  intros f n es1 es2 H1. induction H1 as [n | n rq s es Hc H IH
                                          | n rq s m es Hc Ha Hm H IH
                                          | n rq s es Hc Ha H IH]; intros H2.
  - cbn in *. rewrite Nat.add_0_r in H2. exact H2.
  - cbn [app]. apply marked_plain; [exact Hc|]. apply IH.
    rewrite count_sent_cons_sent, Nat.add_succ_r in H2. exact H2.
  - cbn [app]. apply marked_caught; [exact Hc | exact Ha | exact Hm |].
    apply IH. rewrite count_sent_cons_sent, Nat.add_succ_r in H2.
    unfold count_sent in H2. cbn [filter] in H2.
    rewrite (mark_for_not_sent rq m Hm) in H2. exact H2.
  - cbn [app]. apply marked_raised; [exact Hc | exact Ha |]. apply IH.
    rewrite count_sent_cons_sent, Nat.add_succ_r in H2. exact H2.
Qed.

Lemma marked_block : forall f n rq s m,
  catch_response rq = true -> mark_for rq m ->
  marked f n (Sent rq s :: marks_of (f n rq) m).
Proof.
  intros f n rq s m Hc Hm. unfold marks_of.
  destruct (answered (f n rq)) eqn:Ha.
  - apply marked_caught; [exact Hc | exact Ha | exact Hm | constructor].
  - apply marked_raised; [exact Hc | exact Ha | constructor].
Qed.

Lemma mark_for_index_mark : forall resp,
  mark_for (index_request true) (index_mark resp).
Proof.
  intros resp. unfold index_mark, index_failure.
  destruct (ok resp); [left; reflexivity | right; eexists; reflexivity].
Qed.

Lemma mark_for_checkout_mark : forall resp,
  mark_for checkout_request (checkout_mark resp).
Proof.
  intros resp. unfold checkout_mark, checkout_failure.
  destruct (ok resp); [left; reflexivity | right; eexists; reflexivity].
Qed.

Lemma marked_refresh_events : forall w,
  marked (frontend w) (requests w) (refresh_events w).
Proof.
  intros w. unfold refresh_events.
  destruct (is_nil _); [|constructor].
  apply marked_block; [reflexivity | apply mark_for_index_mark].
Qed.

Lemma marked_task_events : forall t w,
  marked (frontend w) (requests w) (task_events t w).
Proof.
  intros [] w; cbn [task_events];
    try (apply marked_plain; [reflexivity | constructor]).
  - apply marked_app; [apply marked_refresh_events|].
    destruct (Text.is_empty _); [constructor|].
    apply marked_plain; [reflexivity | constructor].
  - apply marked_app; [apply marked_refresh_events|].
    destruct (Text.is_empty _); [constructor|].
    apply marked_plain; [reflexivity | constructor].
  - destruct (is_nil _); [constructor|].
    apply marked_block; [reflexivity | apply mark_for_checkout_mark].
Qed.

Lemma task_frontend : forall t w, frontend (snd (task_body t w)) = frontend w.
Proof.
  intros [] w; cbn [task_body]; try reflexivity.
  - rewrite browse_product_run, _choose_product_chosen.
    destruct (refresh_outcome w); [|apply refreshed_frontend].
    destruct (Text.is_empty _), (is_nil _); cbn; apply refreshed_frontend.
  - rewrite add_to_cart_run, _choose_product_chosen.
    destruct (refresh_outcome w); [|apply refreshed_frontend].
    destruct (Text.is_empty _), (is_nil _); cbn; apply refreshed_frontend.
  - rewrite checkout_run. destruct (is_nil _); reflexivity.
Qed.

Lemma run_tasks_marked : forall ts w,
  exists es,
    log (snd (run_tasks ts w)) = log w ++ es /\
    marked (frontend w) (requests w) es.
Proof.
  induction ts as [|t ts IH]; intros w.
  - exists []. split; [symmetry; apply app_nil_r | constructor].
  - rewrite run_tasks_cons.
    destruct (IH (snd (task_body t w))) as (es & Hl & Hm).
    rewrite task_frontend, task_requests in Hm.
    exists (task_events t w ++ es). split.
    + rewrite Hl, task_log, app_assoc. reflexivity.
    + apply marked_app; [apply marked_task_events | exact Hm].
Qed.

Lemma marked_all_marked : forall f n es,
  always_answers f -> marked f n es -> all_marked es.
Proof.
  intros f n es Hall H. induction H as [n | n rq s es Hc H IH
                                        | n rq s m es Hc Ha Hm H IH
                                        | n rq s es Hc Ha H IH].
  - constructor.
  - apply all_marked_plain; assumption.
  - apply all_marked_caught; assumption.
  - rewrite Hall in Ha. discriminate.
Qed.

(** X14.  A response caught with [catch_response=True] is marked at most
    once, at once, under the name of its request, and nothing else is ever
    marked: over any run of a user, the events added to the log are plain
    requests, caught requests the frontend answered, each followed by its
    one mark, and caught requests the frontend refused, which stay
    unmarked.  On a frontend that answers every request, every caught
    request has exactly one mark. *)
Theorem caught_responses_marked_once : forall ts w0,
  exists es,
    log (snd (run_user ts w0)) = log w0 ++ es /\
    marked (frontend w0) (requests w0) es /\
    (always_answers (frontend w0) -> all_marked es).
Proof.
  intros ts w0.
  assert (H : exists es,
            log (snd (run_user ts w0)) = log w0 ++ es /\
            marked (frontend w0) (requests w0) es).
  { rewrite run_user_tasks.
    destruct (run_tasks_marked ts (snd (on_start w0))) as (es & Hl & Hm).
    rewrite on_start_run in *. cbn [snd] in *.
    set (w1 := with_self (mkSession [] []) w0) in *.
    set (resp := frontend w0 (requests w0) (index_request true)).
    assert (Hstart : log (loaded w1)
                     = log w0 ++ Sent (index_request true) (self w1)
                                 :: marks_of resp (index_mark resp))
      by reflexivity.
    assert (Hblock : marked (frontend w0) (requests w0)
                       (Sent (index_request true) (self w1)
                        :: marks_of resp (index_mark resp)))
      by (apply marked_block; [reflexivity | apply mark_for_index_mark]).
    destruct (block_outcome resp) as [[]|e]; cbn [snd].
    - exists ((Sent (index_request true) (self w1)
               :: marks_of resp (index_mark resp)) ++ es).
      split; [rewrite Hl, Hstart, <- app_assoc; reflexivity|].
      apply marked_app; [exact Hblock|].
      rewrite count_sent_cons_sent, count_sent_marks_of
        by apply is_sent_index_mark.
      rewrite Nat.add_1_r. exact Hm.
    - exists (Sent (index_request true) (self w1)
              :: marks_of resp (index_mark resp)).
      split; [exact Hstart | exact Hblock]. }
  destruct H as (es & Hl & Hm). exists es.
  split; [exact Hl|]. split; [exact Hm|].
  intros Hall. exact (marked_all_marked _ _ _ Hall Hm).
Qed.

(** ** The requests a user sends *)

Lemma task_events_shape : forall t w rq s,
  reachable w ->
  In (Sent rq s) (task_events t w) -> request_shape rq.
Proof.
  intros t w rq s Hw Hin.
  assert (Href : In (Sent rq s) (refresh_events w) -> request_shape rq).
  { unfold refresh_events, marks_of, index_mark, index_failure.
    destruct (is_nil _); [|intros []].
    intros [[= <- _] | H]; [left; eexists; reflexivity|].
    destruct (answered _); [|destruct H].
    destruct H as [H | []]. destruct (ok _); discriminate. }
  assert (Hch : Text.is_empty (chosen w) = false ->
                group_shape PRODUCT_HREF_RE (chosen w)).
  { intros E. pose proof (refreshed_ids_shape w Hw) as Hs.
    rewrite Forall_forall in Hs.
    apply Hs, chosen_In, chosen_nonempty_list, E. }
  destruct t; cbn [task_events] in Hin.
  - destruct Hin as [[= <- _] | []]. left; eexists; reflexivity.
  - destruct Hin as [[= <- _] | []]. right; left.
    eexists; split; [apply currency_of_In | reflexivity].
  - apply in_app_or in Hin as [Hin | Hin]; [auto|].
    destruct (Text.is_empty (chosen w)) eqn:E; [destruct Hin|].
    destruct Hin as [[= <- _] | []]. right; right; left.
    eexists; split; [apply Hch; reflexivity | reflexivity].
  - apply in_app_or in Hin as [Hin | Hin]; [auto|].
    destruct (Text.is_empty (chosen w)) eqn:E; [destruct Hin|].
    destruct Hin as [[= <- _] | []]. right; right; right; left.
    eexists; eexists; split; [apply Hch; reflexivity|].
    split; [apply randint_1_3_range | reflexivity].
  - destruct Hin as [[= <- _] | []]. do 4 right; left; reflexivity.
  - destruct (is_nil _); [destruct Hin|].
    destruct Hin as [[= <- _] | H]; [do 5 right; reflexivity|].
    unfold marks_of, checkout_mark, checkout_failure in H.
    destruct (answered _); [|destruct H].
    destruct H as [H | []]. destruct (ok _); discriminate.
Qed.

Lemma run_tasks_shape : forall ts w rq s,
  reachable w ->
  In (Sent rq s) (log (snd (run_tasks ts w))) ->
  In (Sent rq s) (log w) \/ request_shape rq.
Proof.
  induction ts as [|t ts IH]; intros w rq s Hw Hin; [left; exact Hin|].
  rewrite run_tasks_cons in Hin.
  destruct (IH _ rq s (reach_task w t Hw) Hin) as [H | H]; [|right; exact H].
  rewrite task_log in H. apply in_app_or in H as [H | H]; [left; exact H|].
  right. exact (task_events_shape t w rq s Hw H).
Qed.

(** X15.  A user sends nothing but the six requests of the class: over any
    run, every request added to the log is GET / (index), POST /setCurrency
    with one of the six currency codes, GET /product/id with a well-formed
    id, POST /cart with a well-formed id and a quantity from 1 to 3,
    GET /cart, or POST /cart/checkout with the fixed payload. *)
Theorem requests_have_known_shape : forall ts w0 rq s,
  In (Sent rq s) (log (snd (run_user ts w0))) ->
  In (Sent rq s) (log w0) \/ request_shape rq.
Proof.
  intros ts w0 rq s Hin.
  assert (H : In (Sent rq s) (log (snd (on_start w0))) \/ request_shape rq).
  { rewrite run_user_tasks in Hin.
    destruct (block_outcome _); [|left; exact Hin].
    exact (run_tasks_shape ts _ rq s (reach_start w0) Hin). }
  destruct H as [H | H]; [|right; exact H].
  rewrite on_start_run in H. unfold loaded in H. cbn [snd log] in H.
  apply in_app_or in H as [H | [[= <- _] | H]].
  - left. exact H.
  - right. left. eexists; reflexivity.
  - unfold marks_of, index_mark, index_failure in H.
    destruct (answered _); [|destruct H].
    destruct H as [H | []]. destruct (ok _); discriminate.
Qed.

(** ** From a link to a request and back *)

(** X16.  The path [browse_product] requests for a well-formed id is a
    text discovery reads that same id from, and nothing else: the id found
    on the index page and the URL built from it round-trip. *)
Theorem product_path_round_trip : forall pid,
  group_shape PRODUCT_HREF_RE pid ->
  Re.findall PRODUCT_HREF_RE (path (product_request pid)) = [pid].
Proof.
  intros pid H. cbn [path product_request].
  rewrite <- (append_empty_r pid) at 1.
  change "/product/" with (Re.literal PRODUCT_HREF_RE).
  rewrite (findall_link PRODUCT_HREF_RE pid "" H eq_refl). reflexivity.
Qed.

(** ** The further properties on sample worlds *)

Lemma shopper_reachable : reachable shopper.
Proof. apply reach_start. Qed.

Lemma shopper_knows_products : product_ids (self shopper) <> [].
Proof. vm_compute. discriminate. Qed.

Lemma shop_always_answers : always_answers shop.
Proof. intros n rq. reflexivity. Qed.

Lemma methods_raise_only_refusals_witness :
  refused_at unplugged_world (Transport ConnectionError) /\
  fst (run_user [TaskAddToCart; TaskCheckout] (fresh shop (fun n => n))) = Ok tt.
Proof.
  destruct (methods_raise_only_refusals unplugged_world)
    as (_ & _ & _ & Hstart & _).
  destruct (methods_raise_only_refusals (fresh shop (fun n => n)))
    as (_ & _ & _ & _ & _ & _ & _ & _ & Hall).
  split.
  - apply Hstart. reflexivity.
  - apply (Hall shop_always_answers).
Defined.

Lemma known_ids_well_formed_witness :
  ~ In "" (product_ids (self shopper)) /\
  ("ABC-1" = "" <-> product_ids (self (snd (_choose_product shopper))) = []).
Proof.
  assert (Hc : fst (_choose_product shopper) = Ok "ABC-1")
    by (vm_compute; reflexivity).
  destruct (known_ids_well_formed shopper shopper_reachable)
    as (_ & Hin & Hpid & _).
  split; [exact Hin | exact (Hpid "ABC-1" Hc)].
Defined.

Lemma cart_holds_known_products_witness :
  product_ids (self shopper_with_line) <> [].
Proof.
  assert (Hr : reachable shopper_with_line)
    by (apply reach_task, shopper_reachable).
  assert (Hc : cart_items (self shopper_with_line) <> [])
    by (vm_compute; discriminate).
  exact (proj2 (cart_holds_known_products shopper_with_line Hr) Hc).
Defined.

Lemma catalog_is_never_refreshed_witness :
  product_ids (self (snd (task_body TaskBrowseProduct (basket_world shop))))
  = product_ids (self (basket_world shop)).
Proof.
  assert (Hne : product_ids (self (basket_world shop)) <> [])
    by (vm_compute; discriminate).
  exact (proj1 (catalog_is_never_refreshed (basket_world shop) _ Hne
                  (runs_task _ _ TaskBrowseProduct (runs_refl _)))).
Defined.

Lemma requests_per_cycle_witness :
  requests (snd (task_body TaskBrowseProduct (basket_world shop)))
  <= S (requests (basket_world shop)).
Proof.
  assert (Hne : product_ids (self (basket_world shop)) <> [])
    by (vm_compute; discriminate).
  destruct (requests_per_cycle TaskBrowseProduct (basket_world shop))
    as (es & _ & Hr & _ & H1 & _).
  rewrite Hr. specialize (H1 Hne). lia.
Defined.

Lemma known_catalog_always_acts_witness :
  exists pid,
    In pid (product_ids (self shopper)) /\
    self (snd (browse_product shopper)) = self shopper /\
    appended shopper (snd (browse_product shopper))
      [Sent (product_request pid) (self shopper)].
Proof.
  exact (proj1 (known_catalog_always_acts shopper shopper_reachable
                  shopper_knows_products)).
Defined.

Lemma add_to_cart_without_catalog_witness :
  appended offline_world (snd (add_to_cart offline_world))
    [Sent (index_request true) (mkSession [] []);
     Failure "index" "Index failed with 503"] /\
  fst (add_to_cart unplugged_world) = Raise (Transport ConnectionError).
Proof.
  assert (Ha : product_ids (self (snd (add_to_cart offline_world))) = [])
    by (vm_compute; reflexivity).
  assert (Hb : product_ids (self (snd (add_to_cart unplugged_world))) = [])
    by (vm_compute; reflexivity).
  destruct (add_to_cart_without_catalog offline_world _ _
              eq_refl eq_refl eq_refl Ha) as (_ & _ & _ & Hanswered & _).
  destruct (add_to_cart_without_catalog unplugged_world _ _
              eq_refl eq_refl eq_refl Hb) as (_ & _ & _ & _ & Hrefused).
  split.
  - exact (proj2 (Hanswered eq_refl)).
  - exact (proj1 (Hrefused ConnectionError eq_refl)).
Defined.

Lemma checkout_twice_witness :
  checkout (snd (checkout (basket_world shop)))
  = (Ok tt, snd (checkout (basket_world shop))) /\
  cart_items (self (snd (checkout (snd (checkout (basket_world unreachable))))))
  = [("ABC-1", 2%Z)] /\
  fst (checkout (snd (checkout (basket_world unreachable))))
  = Raise (Transport ConnectionError).
Proof.
  assert (Hne : forall f, cart_items (self (basket_world f)) <> [])
    by (intros f; discriminate).
  destruct (proj2 (checkout_twice (basket_world unreachable) _ _
                     (Hne unreachable) eq_refl eq_refl) eq_refl)
    as (_ & Hsecond).
  destruct (Hsecond _ _ eq_refl eq_refl) as (_ & Hcart & _ & Hrefused).
  split; [|split].
  - exact (proj1 (checkout_twice (basket_world shop) _ _ (Hne shop)
                    eq_refl eq_refl) eq_refl).
  - exact Hcart.
  - exact (proj1 (Hrefused ConnectionError eq_refl)).
Defined.

Lemma discovery_keeps_order_and_repeats_witness :
  Re.findall PRODUCT_HREF_RE
    ("<a " ++ product_link "ABC-1" ++ ">one</a><a "
           ++ product_link "ABC-1" ++ ">again</a>")
  = ["ABC-1"; "ABC-1"].
Proof.
  assert (Hno : forall s, Text.contains "/product/" s = false ->
                ~ Text.occurs_in "/product/" s).
  { intros s E H. apply contains_occurs_in in H. congruence. }
  assert (H1 : ~ Text.occurs_in "/product/" "<a ")
    by (apply Hno; vm_compute; reflexivity).
  assert (H2 : ~ Text.occurs_in "/product/" ">one</a><a ")
    by (apply Hno; vm_compute; reflexivity).
  assert (H3 : ~ Text.occurs_in "/product/" ">again</a>")
    by (apply Hno; vm_compute; reflexivity).
  assert (Hs : group_shape PRODUCT_HREF_RE "ABC-1")
    by (split; vm_compute; reflexivity).
  exact (proj1 (discovery_keeps_order_and_repeats _ _ _ _ _ H1 H2 H3 Hs Hs)).
Defined.

Lemma failure_reason_names_status_witness :
  status_of_reason "Index failed with " "Index failed with 503" = Some 503%Z.
Proof.
  exact (proj1 failure_reason_names_status (mkResponse false 503 None)
               "Index failed with 503" eq_refl).
Defined.

Lemma caught_responses_marked_once_witness :
  exists es,
    log (snd (run_user [TaskAddToCart; TaskCheckout] (fresh shop (fun n => n))))
    = es /\
    all_marked es.
Proof.
  destruct (caught_responses_marked_once [TaskAddToCart; TaskCheckout]
              (fresh shop (fun n => n))) as (es & Hl & _ & Hall).
  exists es. split; [exact Hl | exact (Hall shop_always_answers)].
Defined.

Lemma requests_have_known_shape_witness :
  In (Sent cart_request (mkSession [] [])) (log offline_world) \/
  request_shape cart_request.
Proof.
  assert (Hin : In (Sent cart_request (mkSession [] []))
                   (log (snd (run_user [TaskViewCart] offline_world))))
    by (vm_compute; right; right; left; reflexivity).
  exact (requests_have_known_shape [TaskViewCart] offline_world _ _ Hin).
Defined.

Lemma product_path_round_trip_witness :
  Re.findall PRODUCT_HREF_RE (path (product_request "OLJCESPC7Z"))
  = ["OLJCESPC7Z"].
Proof.
  assert (Hs : group_shape PRODUCT_HREF_RE "OLJCESPC7Z")
    by (split; vm_compute; reflexivity).
  exact (product_path_round_trip "OLJCESPC7Z" Hs).
Defined.
